(** * Webscrap RAG chatbot: a shallow embedding of [main.py]

    The file follows the layout of [main.py]: Python strings and the
    [str] methods the program calls, the ingestion stages (scraper,
    chunker, embedding build), the user and chat stores, the PII masker
    and the three-node query pipeline.  Library calls whose code is not
    part of the program (the browser, BeautifulSoup, the vector store,
    the language model) are the fields of the class [External]; the
    statements hold for every instance of it.  A JSON file is modelled
    by the value it holds, so [json.load] returns what [json.dump]
    wrote. *)

From Stdlib Require Import NArith String Ascii Lia.
From stdpp Require Import gmap list fin_maps.

Set Default Proof Using "Type".

(** ** Python strings

    A Python [str] is a sequence of Unicode code points; [len] counts
    code points.  A code point is an [N], a string a [list N]. *)

Abbreviation str := (list N).

Definition lit (s : string) : str :=
  map N_of_ascii (list_ascii_of_string s).

(** [s.startswith(p)] *)
Fixpoint startswith (p s : str) : bool :=
  match p, s with
  | [], _ => true
  | _ :: _, [] => false
  | a :: p', b :: s' => (a =? b)%N && startswith p' s'
  end.

(** [p in s] for strings: [p] occurs at some offset of [s]. *)
Fixpoint occurs (p s : str) : bool :=
  startswith p s ||
  match s with
  | [] => false
  | _ :: s' => occurs p s'
  end.

(** [s.replace(old, new)] for a non-empty [old]: scan from the left,
    replace the leftmost match and resume after it.  [skip] counts the
    characters of the current match that are still to be dropped. *)
Fixpoint replace_scan (old new : str) (skip : nat) (s : str) : str :=
  match s with
  | [] => []
  | c :: s' =>
      match skip with
      | S k => replace_scan old new k s'
      | O =>
          if startswith old s
          then new ++ replace_scan old new (length old - 1) s'
          else c :: replace_scan old new 0 s'
      end
  end.

(** [s.replace(old, new)].  With an empty [old] Python inserts [new]
    before every character and at the end. *)
Definition replace (s old new : str) : str :=
  match old with
  | [] => new ++ concat (map (fun c => c :: new) s)
  | _ :: _ => replace_scan old new 0 s
  end.

(** ["\n".join(parts)] and friends *)
Fixpoint join (sep : str) (parts : list str) : str :=
  match parts with
  | [] => []
  | [x] => x
  | x :: rest => x ++ sep ++ join sep rest
  end.


Definition nl : str := [10%N].
Definition dq : str := [34%N].

(** [bool(s)] of a string: the empty string is falsy. *)
Definition truthy (s : str) : bool :=
  match s with
  | [] => false
  | _ :: _ => true
  end.

(** ** Values, exceptions and results *)

(** A value that is [None] or a string, as [state["context"]] is. *)
Inductive pyopt :=
  | PyNone
  | PyStr (s : str).

(** What an f-string prints for such a value. *)
Definition format_value (v : pyopt) : str :=
  match v with
  | PyNone => lit "None"
  | PyStr s => s
  end.

Inductive exn :=
  | KeyError (key : str)
  | FileNotFoundError (path : str)
  | WebDriverException
  | LibraryError (code : nat).

Inductive result (A : Type) :=
  | Ok (a : A)
  | Raise (e : exn).

Arguments Ok {A} a.
Arguments Raise {A} e.

Global Instance result_ret : MRet result := fun A a => Ok a.

Global Instance result_bind : MBind result :=
  fun A B f m =>
    match m with
    | Ok a => f a
    | Raise e => Raise e
    end.

(** [try: body except Exception: handler] *)
Definition try_except {A} (body : result A) (handler : A) : A :=
  match body with
  | Ok a => a
  | Raise _ => handler
  end.

(** [d[k]] on a dict *)
Definition getitem {V} (d : gmap str V) (k : str) : result V :=
  match d !! k with
  | Some v => Ok v
  | None => Raise (KeyError k)
  end.

(** [d.get(k, dflt)] *)
Definition dict_get {V} (d : gmap str V) (k : str) (dflt : V) : V :=
  default dflt (d !! k).

Record Document := { page_content : str }.

(** ** Config & paths *)

Definition BASE_URL : str := lit "https://www.occamsadvisory.com/".
Definition VECTORSTORE_PATH : str := lit "faiss_index".
Definition USER_FILE : str := lit "user_data.json".
Definition CHAT_FILE : str := lit "chat_history.json".
Definition KNOWLEDGE_FILE : str := lit "knowledge.json".
Definition CHUNKS_FILE : str := lit "chunks.json".

(** ** The libraries the program calls

    Selenium's driver, BeautifulSoup's selector engine, the FAISS store
    with the Ollama embeddings, the retriever and the language model are
    not code of the program.  Calls that can fail return a [result]. *)

Class External := {
  Tag : Type;
  VectorStore : Type;
  chrome_launch : result unit;
  driver_get : str -> result unit;
  page_source : str;
  soup_select : str -> str -> list Tag;
  get_text_strip : Tag -> str;
  from_documents : list Document -> result VectorStore;
  retriever_invoke : str -> result (list Document);
  llm_invoke : str -> result str
}.

(** ** Files, effects and the monad of the build steps *)

Inductive event :=
  | PathExists (path : str)
  | ChromeLaunch
  | DriverGet (url : str)
  | Sleep (seconds : nat)
  | ExecuteScript (js : str)
  | PageSource
  | DriverQuit
  | FileRead (path : str)
  | FileWrite (path : str)
  | EmbedDocuments (docs : list Document)
  | SaveLocal (path : str).

Section program.
Context `{E : External}.

(** The files of the working directory, each absent ([None]) or holding
    the JSON value (or index) last written to it. *)
Record Store := mkStore {
  knowledge_json : option (list (gmap str str));
  chunks_json : option (list str);
  faiss_index : option VectorStore;
  user_file : option (list (gmap str str));
  chat_file : option (gmap str (list (gmap str str)))
}.

Record World := mkWorld {
  files : Store;
  trace : list event
}.

Definition IO (A : Type) : Type := World -> result A * World.

Global Instance IO_ret : MRet IO := fun A a w => (Ok a, w).

Global Instance IO_bind : MBind IO :=
  fun A B f m w =>
    match m w with
    | (Ok a, w') => f a w'
    | (Raise e, w') => (Raise e, w')
    end.

Definition raise {A} (e : exn) : IO A := fun w => (Raise e, w).

Definition lift {A} (r : result A) : IO A := fun w => (r, w).

Definition log (e : event) : IO unit :=
  fun w => (Ok tt, mkWorld (files w) (trace w ++ [e])).

Definition get_files : IO Store := fun w => (Ok (files w), w).

Definition put_files (s : Store) : IO unit :=
  fun w => (Ok tt, mkWorld s (trace w)).

(** [os.path.exists(path)] for the file kept in [field] *)
Definition os_path_exists {X} (path : str) (field : Store -> option X) : IO bool :=
  _ ← log (PathExists path);
  s ← get_files;
  mret (bool_decide (is_Some (field s))).

(** [json.load(open(path))] *)
Definition json_load {X} (path : str) (field : Store -> option X) : IO X :=
  s ← get_files;
  match field s with
  | Some v => _ ← log (FileRead path); mret v
  | None => raise (FileNotFoundError path)
  end.

(** [json.dump(value, open(path, "w"))] *)
Definition json_dump (path : str) (update : Store -> Store) : IO unit :=
  s ← get_files;
  _ ← log (FileWrite path);
  put_files (update s).

Definition set_knowledge_json (v : list (gmap str str)) (s : Store) : Store :=
  mkStore (Some v) (chunks_json s) (faiss_index s) (user_file s) (chat_file s).

Definition set_chunks_json (v : list str) (s : Store) : Store :=
  mkStore (knowledge_json s) (Some v) (faiss_index s) (user_file s) (chat_file s).

Definition set_faiss_index (v : VectorStore) (s : Store) : Store :=
  mkStore (knowledge_json s) (chunks_json s) (Some v) (user_file s) (chat_file s).

Definition set_user_file (v : list (gmap str str)) (s : Store) : Store :=
  mkStore (knowledge_json s) (chunks_json s) (faiss_index s) (Some v) (chat_file s).

Definition set_chat_file (v : gmap str (list (gmap str str))) (s : Store) : Store :=
  mkStore (knowledge_json s) (chunks_json s) (faiss_index s) (user_file s) (Some v).

(** ** Step 1: scraper *)

Definition selectors : list str :=
  [lit "div.et_pb_text_inner"; lit "section.et_pb_section p"; lit "h1, h2, h3"].

(** [{"content": text, "url": BASE_URL}] *)
Definition knowledge_entry (text : str) : gmap str str :=
  <[lit "url" := BASE_URL]> (<[lit "content" := text]> ∅).

(** The body of the inner loop for one tag: [data] and [seen_text] are
    the two accumulators. *)
Definition visit_tag (acc : list (gmap str str) * gset str) (tag : Tag)
  : list (gmap str str) * gset str :=
  let '(data, seen_text) := acc in
  let text := get_text_strip tag in
  if truthy text && (30 <? length text)%nat && bool_decide (text ∉ seen_text)
  then (data ++ [knowledge_entry text], {[text]} ∪ seen_text)
  else (data, seen_text).

(** The two nested loops over the selectors and their matches. *)
Definition select_entries (html : str) : list (gmap str str) :=
  fst (foldl (fun acc sel => foldl visit_tag acc (soup_select html sel))
             ([], ∅) selectors).

Definition scrape_occams : IO unit :=
  present ← os_path_exists KNOWLEDGE_FILE knowledge_json;
  if present : bool then mret tt
  else
    _ ← log ChromeLaunch;
    _ ← lift chrome_launch;
    _ ← log (DriverGet BASE_URL);
    _ ← lift (driver_get BASE_URL);
    _ ← log (Sleep 5);
    _ ← log (ExecuteScript (lit "window.scrollTo(0, document.body.scrollHeight);"));
    _ ← log (Sleep 2);
    _ ← log PageSource;
    _ ← log DriverQuit;
    json_dump KNOWLEDGE_FILE (set_knowledge_json (select_entries page_source)).

(** ** Step 2: chunking *)

(** [[entry["content"] for entry in knowledge]] *)
Fixpoint contents_of (knowledge : list (gmap str str)) : result (list str) :=
  match knowledge with
  | [] => Ok []
  | entry :: rest =>
      c ← getitem entry (lit "content");
      cs ← contents_of rest;
      mret (c :: cs)
  end.

Definition make_chunks : IO unit :=
  present ← os_path_exists CHUNKS_FILE chunks_json;
  if present : bool then mret tt
  else
    knowledge ← json_load KNOWLEDGE_FILE knowledge_json;
    chunks ← lift (contents_of knowledge);
    json_dump CHUNKS_FILE (set_chunks_json chunks).

(** ** Step 3: embeddings and vector store *)

Definition build_embeddings : IO unit :=
  present ← os_path_exists VECTORSTORE_PATH faiss_index;
  if present : bool then mret tt
  else
    chunk_texts ← json_load CHUNKS_FILE chunks_json;
    let docs := map (fun text => {| page_content := text |}) chunk_texts in
    _ ← log (EmbedDocuments docs);
    vectorstore ← lift (from_documents docs);
    s ← get_files;
    _ ← log (SaveLocal VECTORSTORE_PATH);
    put_files (set_faiss_index vectorstore s).

(** The three preprocessing calls at the top of [main]. *)
Definition ingest : IO unit :=
  _ ← scrape_occams;
  _ ← make_chunks;
  build_embeddings.

(** ** Users and chat history *)

Definition load_users : IO (list (gmap str str)) :=
  present ← os_path_exists USER_FILE user_file;
  if present : bool then json_load USER_FILE user_file else mret [].

Definition save_users (users : list (gmap str str)) : IO unit :=
  json_dump USER_FILE (set_user_file users).

Definition load_chat (user_email : str) : IO (list (gmap str str)) :=
  present ← os_path_exists CHAT_FILE chat_file;
  if present : bool then
    all_history ← json_load CHAT_FILE chat_file;
    mret (dict_get all_history user_email [])
  else mret [].

Definition save_chat (user_email : str) (history : list (gmap str str)) : IO unit :=
  present ← os_path_exists CHAT_FILE chat_file;
  all_history ← (if present : bool then json_load CHAT_FILE chat_file else mret ∅);
  json_dump CHAT_FILE (set_chat_file (<[user_email := history]> all_history)).

End program.

(** ** The Streamlit session *)

(** [st.session_state]: every key is absent ([None]) or set. *)
Record SessionState := mkSession {
  onboarding_complete : option bool;
  user_info : option (gmap str str);
  chat_history : option (list (gmap str str));
  form_id : option nat
}.

Definition fresh_session : SessionState := mkSession None None None None.

(** The four [if key not in st.session_state] defaults of [main]. *)
Definition init_session (ss : SessionState) : SessionState :=
  mkSession
    (Some (default false (onboarding_complete ss)))
    (Some (default ∅ (user_info ss)))
    (Some (default [] (chat_history ss)))
    (Some (default 0 (form_id ss))).

(** [{"name": name, "email": email, "phone": phone}] *)
Definition new_user (name email phone : str) : gmap str str :=
  <[lit "phone" := phone]> (<[lit "email" := email]> (<[lit "name" := name]> ∅)).

(** The session after an accepted onboarding form. *)
Definition complete_onboarding (name email phone : str) (ss : SessionState)
  : SessionState :=
  mkSession (Some true) (Some (new_user name email phone)) (Some []) (form_id ss).

(** The session after the logout button. *)
Definition logout (ss : SessionState) : SessionState :=
  mkSession (Some false) (Some ∅) (Some []) (S <$> form_id ss).

(** ** PII masking *)

Definition NAME_TOKEN : str := lit "[NAME]".
Definition EMAIL_TOKEN : str := lit "[EMAIL]".
Definition PHONE_TOKEN : str := lit "[PHONE]".

Definition mask_pii (ss : SessionState) (text : str) : str :=
  let masked := text in
  match user_info ss with
  | Some info =>
      let masked := replace masked (dict_get info (lit "name") []) NAME_TOKEN in
      let masked := replace masked (dict_get info (lit "email") []) EMAIL_TOKEN in
      let masked := replace masked (dict_get info (lit "phone") []) PHONE_TOKEN in
      masked
  | None => masked
  end.

(** The last statement of [output_node]: put the name back. *)
Definition unmask_name (ss : SessionState) (answer : str) : result str :=
  match user_info ss with
  | Some info =>
      name ← getitem info (lit "name");
      mret (replace answer NAME_TOKEN name)
  | None => mret answer
  end.

(** ** The query pipeline *)

(** The [State] dict: a key is absent or set; [context] may be set to
    Python's [None]. *)
Record State := mkState {
  question : option str;
  route : option str;
  context : option pyopt;
  answer : option str
}.

Definition key_of {A} (k : str) (field : option A) : result A :=
  match field with
  | Some v => Ok v
  | None => Raise (KeyError k)
  end.

Definition prompt_head : str :=
  concat [
    nl;
    lit "            You are an AI Assistantrepresenting Occams Advisory." ++ nl;
    lit "        Using the following context, provide a clear, structured answer to the user." ++ nl;
    lit "        When answering, speak in first-person as the company (" ++ dq ++ lit "we" ++ dq ++ lit ", " ++ dq ++ lit "our" ++ dq ++ lit ")." ++ nl;
    lit "        Be friendly, professional, and concise." ++ nl;
    lit "        Rules:" ++ nl;
    lit "           -If the user greets with (eg. " ++ dq ++ lit "hi" ++ dq ++ lit "," ++ dq ++ lit "hello" ++ dq ++ lit "," ++ dq ++ lit "hey" ++ dq ++ lit "), reply with a warm greeting and suggest " ++ nl;
    lit "            what they can ask about (services, careers, contact info)." ++ nl;
    lit "           -If the user greets + asks a real question (e.g., " ++ dq ++ lit "Hi, I want to know about your company" ++ dq ++ lit "), " ++ nl;
    lit "            combine both: start with a greeting and then answer their question." ++ nl;
    lit "           -If the user asks something unrelated to the knowledge base, reply: " ++ nl;
    lit "            " ++ dq ++ [10060%N] ++ lit " Sorry, I don" ++ [8217%N] ++ lit "t know the answer based on our data." ++ dq ++ nl;
    lit "           - Do NOT say " ++ dq ++ lit "based on the provided context" ++ dq ++ lit " or similar phrases." ++ nl;
    lit "           - Just answer directly like a human from the company would." ++ nl;
    lit "           - Do not include any generic signatures, disclaimers, or placeholders like [Your Name] " ++ nl;
    lit "             or [Your Position]" ++ nl;
    nl;
    lit "            Context:" ++ nl;
    lit "            "
  ].

Definition prompt_mid : str :=
  concat [
    nl;
    lit "            Question:" ++ nl;
    lit "            "
  ].

Definition prompt_tail : str :=
  concat [
    nl;
    lit "            "
  ].

(** The f-string of [output_node]. *)
Definition prompt_of (ctx : pyopt) (q : str) : str :=
  prompt_head ++ format_value ctx ++ prompt_mid ++ q ++ prompt_tail.

Definition UNAVAILABLE : str :=
  [9888%N; 65039%N] ++ lit " AI assistant is temporarily unavailable.".

Section pipeline.
Context `{E : External}.

Definition router_node (state : State) : result State :=
  mret (mkState (question state) (Some (lit "RETRIEVAL")) (context state) (answer state)).

Definition retrieval_node (ss : SessionState) (state : State) : result State :=
  q ← key_of (lit "question") (question state);
  docs ← retriever_invoke (mask_pii ss q);
  let ctx :=
    match docs with
    | [] => PyNone
    | _ :: _ => PyStr (join nl (map page_content docs))
    end in
  mret (mkState (question state) (route state) (Some ctx) (answer state)).

Definition output_node (ss : SessionState) (state : State) : result State :=
  let generated :=
    try_except
      (ctx ← key_of (lit "context") (context state);
       q ← key_of (lit "question") (question state);
       llm_invoke (mask_pii ss (prompt_of ctx q)))
      UNAVAILABLE in
  final ← unmask_name ss generated;
  mret (mkState (question state) (route state) (context state) (Some final)).

(** The compiled graph keeps one channel for each annotated key of
    [State] ([question], [context], [answer]) and no other: a key that a
    node adds beside them, as [router_node] does with [route], is not
    taken over into the state of the graph. *)
Definition channels (state : State) : State :=
  mkState (question state) None (context state) (answer state).

(** [app.invoke(state)]: router, then retrieval, then output, each node
    reading the channels and writing its update to them. *)
Definition app_invoke (ss : SessionState) (state : State) : result State :=
  s1 ← router_node (channels state);
  s2 ← retrieval_node ss (channels s1);
  s3 ← output_node ss (channels s2);
  mret (channels s3).

(** [app.invoke({"question": user_input})] *)
Definition ask (ss : SessionState) (user_input : str) : result State :=
  app_invoke ss (mkState (Some user_input) None None None).

End pipeline.

(** ** Side conditions used by the statements about masking *)

Definition LBRACKET : N := 91%N.
Definition RBRACKET : N := 93%N.

Definition bracket_free (f : str) : bool :=
  forallb (fun c => negb (c =? LBRACKET)%N && negb (c =? RBRACKET)%N) f.

(** A field value that is non-empty, has no square bracket and is not a
    piece of any of the given placeholder words. *)
Definition maskable (f : str) (words : list str) : bool :=
  truthy f && bracket_free f && forallb (fun w => negb (occurs f w)) words.

(** [Occ p s]: [p] occurs in [s], as a proposition. *)
Definition Occ (p s : str) : Prop := exists a b, s = a ++ p ++ b.

(** ** The script of [main]

    Streamlit runs [main] from the top on every interaction.  One run
    gets the widget values ([Inputs]), works on the session and the
    files and shows notices.  The display calls that only render
    (headers, the form fields, the transcript) are left out, and so is
    the loading of the index and of the model handles, which are the
    [External] instance. *)

Inductive notice :=
  | StError (msg : str)
  | StWarning (msg : str)
  | StSuccess (msg : str).

Record Inputs := mkInputs {
  in_name : str;
  in_email : str;
  in_phone : str;
  in_submitted : bool;
  in_logout : bool;
  in_question : str
}.

(** [{"user": user_input, "ai": answer}] *)
Definition chat_turn (user_input ai : str) : gmap str str :=
  <[lit "ai" := ai]> (<[lit "user" := user_input]> ∅).

(** One operand of the [any(...)] of the sign-up check: the three
    comparisons, joined by [and], stop at the first that fails. *)
Definition same_user (u new : gmap str str) : result bool :=
  n ← getitem u (lit "name");
  n' ← getitem new (lit "name");
  if bool_decide (n = n') then
    e ← getitem u (lit "email");
    e' ← getitem new (lit "email");
    if bool_decide (e = e') then
      p ← getitem u (lit "phone");
      p' ← getitem new (lit "phone");
      mret (bool_decide (p = p'))
    else mret false
  else mret false.

(** [any(... for u in users)]: stops at the first record that matches. *)
Fixpoint already_signed_up (users : list (gmap str str)) (new : gmap str str)
  : result bool :=
  match users with
  | [] => Ok false
  | u :: rest =>
      b ← same_user u new;
      if b : bool then Ok true else already_signed_up rest new
  end.

Section script.
Context `{E : External}.

Record AppState := mkApp {
  session : SessionState;
  world : World;
  notices : list notice
}.

Definition App (A : Type) : Type := AppState -> result A * AppState.

Global Instance App_ret : MRet App := fun A a s => (Ok a, s).

Global Instance App_bind : MBind App :=
  fun A B f m s =>
    match m s with
    | (Ok a, s') => f a s'
    | (Raise e, s') => (Raise e, s')
    end.

Definition in_world {A} (m : IO A) : App A :=
  fun s =>
    let '(r, w') := m (world s) in
    (r, mkApp (session s) w' (notices s)).

Definition of_result {A} (r : result A) : App A := fun s => (r, s).

Definition notify (n : notice) : App unit :=
  fun s => (Ok tt, mkApp (session s) (world s) (notices s ++ [n])).

Definition get_session : App SessionState := fun s => (Ok (session s), s).

Definition put_session (ss : SessionState) : App unit :=
  fun s => (Ok tt, mkApp ss (world s) (notices s)).

(** The blocks below run after the four defaults of [main], so every
    key they read is set; [default] only unwraps it. *)

Section onboarding.
(** [str.isdigit], which depends on the Unicode tables. *)
Variable isdigit : str -> bool.

(** Onboarding: the form and the body of [if submitted:]. *)
Definition onboarding_block (name email phone : str) (submitted : bool)
  : App unit :=
  ss ← get_session;
  if negb (default false (onboarding_complete ss)) then
    if submitted then
      if negb (truthy name) || negb (truthy email) || negb (truthy phone) then
        notify (StError (lit "All fields are required."))
      else if negb (occurs (lit "@") email) || negb (occurs (lit ".") email) then
        notify (StError (lit "Please enter a valid email."))
      else if negb (isdigit phone) || (length phone <? 7)%nat then
        notify (StError (lit "Please enter a valid phone number."))
      else
        users ← in_world load_users;
        let new := new_user name email phone in
        known ← of_result (already_signed_up users new);
        _ ← (if known : bool then
               notify (StWarning ([9888%N; 65039%N]
                                  ++ lit " You have already signed up."))
             else
               _ ← in_world (save_users (users ++ [new]));
               notify (StSuccess ([9989%N] ++ lit " Onboarding completed! You can now chat with the assistant.")));
        put_session (mkSession (Some true) (Some new) (Some []) (form_id ss))
    else mret tt
  else mret tt.

End onboarding.

(** Signed-in user and logout.  The result tells whether [st.rerun()]
    was called, which ends the run. *)
Definition logout_block (clicked : bool) : App bool :=
  ss ← get_session;
  if default false (onboarding_complete ss) then
    let info := default ∅ (user_info ss) in
    if clicked then
      email ← of_result (getitem info (lit "email"));
      _ ← in_world (save_chat email (default [] (chat_history ss)));
      _ ← put_session (logout ss);
      mret true
    else mret false
  else mret false.

(** Chat input and history. *)
Definition chat_block (user_input : str) : App unit :=
  ss ← get_session;
  if default false (onboarding_complete ss) then
    if truthy user_input then
      result ← of_result (ask ss user_input);
      ai ← of_result (key_of (lit "answer") (answer result));
      let history := default [] (chat_history ss) ++ [chat_turn user_input ai] in
      _ ← put_session (mkSession (onboarding_complete ss) (user_info ss)
                         (Some history) (form_id ss));
      email ← of_result (getitem (default ∅ (user_info ss)) (lit "email"));
      in_world (save_chat email history)
    else mret tt
  else mret tt.

(** One run of [main]. *)
Definition main (isdigit : str -> bool) (inp : Inputs) : App unit :=
  _ ← in_world ingest;
  ss ← get_session;
  _ ← put_session (init_session ss);
  _ ← onboarding_block isdigit (in_name inp) (in_email inp) (in_phone inp)
        (in_submitted inp);
  rerun ← logout_block (in_logout inp);
  if rerun : bool then mret tt else chat_block (in_question inp).

End script.

(** The three fields of a stored user record are the given ones. *)
Definition is_user (name email phone : str) (u : gmap str str) : Prop :=
  u !! lit "name" = Some name
  /\ u !! lit "email" = Some email
  /\ u !! lit "phone" = Some phone.

Global Instance is_user_dec (name email phone : str) (u : gmap str str) :
  Decision (is_user name email phone u).
Proof. unfold is_user. apply _. Defined.

(** A stored user record has the three keys the sign-up check reads. *)
Definition has_user_keys (u : gmap str str) : Prop :=
  is_Some (u !! lit "name")
  /\ is_Some (u !! lit "email")
  /\ is_Some (u !! lit "phone").

(** The three checks of the onboarding form, as one boolean. *)
Definition form_valid (isdigit : str -> bool) (name email phone : str) : bool :=
  truthy name && truthy email && truthy phone
  && occurs (lit "@") email && occurs (lit ".") email
  && isdigit phone && (7 <=? length phone)%nat.

(** ASCII digits only; stands for [str.isdigit] in the examples. *)
Definition ascii_isdigit (s : str) : bool :=
  truthy s && forallb (fun c => (48 <=? c)%N && (c <=? 57)%N) s.

(** ** The content selector, as the specification words it

    The texts of all matches, selector by selector and in document order
    within a selector; the length filter; and the list of first
    occurrences: keep the head, drop its later copies from the rest. *)

Section selector_spec.
Context `{E : External}.

Definition all_texts (html : str) : list str :=
  concat (map (fun sel => map get_text_strip (soup_select html sel)) selectors).

End selector_spec.

Definition long_enough (text : str) : bool :=
  truthy text && (30 <? length text)%nat.

Fixpoint keep_first (l : list str) : list str :=
  match l with
  | [] => []
  | x :: rest => x :: filter (fun y => y <> x) (keep_first rest)
  end.

(** The session either has no [user_info] entry or a profile with a name. *)
Definition name_available (ss : SessionState) : Prop :=
  user_info ss = None \/
  exists info name, user_info ss = Some info /\ info !! lit "name" = Some name.

(** The context that [retrieval_node] stores for a list of documents. *)
Definition context_of (docs : list Document) : pyopt :=
  match docs with
  | [] => PyNone
  | _ :: _ => PyStr (join nl (map page_content docs))
  end.

(** ** Concrete libraries and worlds for the examples *)

Definition sample_page : str := lit "<html>sample</html>".

Definition text_a : str := lit "We provide accounting and tax advisory services.".
Definition text_b : str := lit "Occams Advisory helps small businesses to grow.".
Definition text_c : str := lit "Contact us".

(** A page on which the first selector matches [text_a], [text_c] and
    [text_a] again, the second [text_b] and [text_a], the third nothing;
    a retriever with no result and a model that is down. *)
Definition sample_external : External := {|
  Tag := str;
  VectorStore := list Document;
  chrome_launch := Ok tt;
  driver_get := fun _ => Ok tt;
  page_source := sample_page;
  soup_select := fun _ sel =>
    if bool_decide (sel = lit "div.et_pb_text_inner") then [text_a; text_c; text_a]
    else if bool_decide (sel = lit "section.et_pb_section p") then [text_b; text_a]
    else [];
  get_text_strip := fun t => t;
  from_documents := fun docs => Ok docs;
  retriever_invoke := fun _ => Ok [];
  llm_invoke := fun _ => Raise (LibraryError 1)
|}.

(** The same page with the embedding service unreachable: the retriever
    call itself raises. *)
Definition offline_external : External := {|
  Tag := str;
  VectorStore := list Document;
  chrome_launch := Ok tt;
  driver_get := fun _ => Ok tt;
  page_source := sample_page;
  soup_select := fun _ _ => [];
  get_text_strip := fun t => t;
  from_documents := fun docs => Ok docs;
  retriever_invoke := fun _ => Raise (LibraryError 2);
  llm_invoke := fun _ => Ok (lit "Hello [NAME]!")
|}.

Definition empty_store `{E : External} : Store :=
  mkStore None None None None None.

Definition empty_world `{E : External} : World := mkWorld empty_store [].

Definition sample_entries : list (gmap str str) :=
  [knowledge_entry text_a; knowledge_entry text_b].


(** The three artifacts are there, with chunks that no longer match the
    knowledge. *)
Definition built_world : @World sample_external :=
  mkWorld (mkStore (Some sample_entries) (Some [text_c])
             (Some ([{| page_content := text_c |}] : @VectorStore sample_external))
             None None) [].

Definition sample_turn : gmap str str :=
  <[lit "ai" := lit "Hello Ana Li!"]> (<[lit "user" := lit "hi"]> ∅).

Definition ana_session : SessionState :=
  complete_onboarding (lit "Ana Li") (lit "ana@x.com") (lit "5551234")
    (init_session fresh_session).

(** A working service: the retriever finds two passages and the model
    answers with the name placeholder. *)
Definition online_external : External := {|
  Tag := str;
  VectorStore := list Document;
  chrome_launch := Ok tt;
  driver_get := fun _ => Ok tt;
  page_source := sample_page;
  soup_select := fun _ sel =>
    if bool_decide (sel = lit "h1, h2, h3") then [text_a; text_b; text_a] else [];
  get_text_strip := fun t => t;
  from_documents := fun docs => Ok docs;
  retriever_invoke := fun _ =>
    Ok [{| page_content := text_a |}; {| page_content := text_b |}];
  llm_invoke := fun _ => Ok (lit "Hello [NAME], we provide tax advice.")
|}.

(** No browser can be launched, and the embedding service is down. *)
Definition no_browser_external : External := {|
  Tag := str;
  VectorStore := list Document;
  chrome_launch := Raise WebDriverException;
  driver_get := fun _ => Ok tt;
  page_source := sample_page;
  soup_select := fun _ _ => [];
  get_text_strip := fun t => t;
  from_documents := fun _ => Raise (LibraryError 3);
  retriever_invoke := fun _ => Ok [];
  llm_invoke := fun _ => Ok []
|}.

(** A [knowledge.json] whose second record has no [content] key. *)
Definition broken_knowledge : list (gmap str str) :=
  [knowledge_entry text_a; <[lit "url" := BASE_URL]> ∅].

Definition broken_world : @World sample_external :=
  mkWorld (mkStore (Some broken_knowledge) None None None None) [].

(** Knowledge and chunks are there, the index is not. *)
Definition chunked_world : @World sample_external :=
  mkWorld (mkStore (Some sample_entries) (Some [text_a; text_b]) None None None) [].

Definition ana_user : gmap str str :=
  new_user (lit "Ana Li") (lit "ana@x.com") (lit "5551234").

(** The directory of a deployment in use: the three artifacts, one
    registered user and two stored turns of hers. *)
Definition returning_world : @World online_external :=
  mkWorld
    (mkStore (Some sample_entries) (Some [text_a; text_b])
       (Some ([{| page_content := text_a |}; {| page_content := text_b |}]
                : @VectorStore online_external))
       (Some [ana_user])
       (Some (<[lit "ana@x.com" := [sample_turn; sample_turn]]> ∅)))
    [].

Definition signed_out_app : @AppState online_external :=
  mkApp (init_session fresh_session) returning_world [].

Definition signed_in_app : @AppState online_external :=
  mkApp ana_session returning_world [].

(** A user file whose only record has a name and nothing else. *)
Definition half_user_app : @AppState online_external :=
  mkApp (init_session fresh_session)
    (mkWorld (mkStore None None None
                (Some [<[lit "name" := lit "Ana Li"]> ∅]) None) [])
    [].

Definition offline_app : @AppState offline_external :=
  mkApp ana_session empty_world [].

Definition sample_answer : State :=
  mkState (Some (lit "what do you do?")) None
    (Some (PyStr (text_a ++ nl ++ text_b)))
    (Some (lit "Hello Ana Li, we provide tax advice.")).

Definition sample_reply_turn : gmap str str :=
  chat_turn (lit "what do you do?") (lit "Hello Ana Li, we provide tax advice.").

(** * Properties *)

(** Unfolds the monad of the build steps in a goal. *)
Ltac run_io :=
  unfold scrape_occams, make_chunks, build_embeddings, load_users, save_users,
    load_chat, save_chat, os_path_exists, json_load, json_dump, log, get_files,
    put_files, lift, raise, mbind, IO_bind, mret, IO_ret;
  simpl.

(** Unfolds the monad of the script in a goal. *)
Ltac run_app :=
  unfold main, onboarding_block, logout_block, chat_block, in_world,
    of_result, notify, get_session, put_session, mbind, App_bind, mret,
    App_ret;
  simpl.


(** ** Strings *)

Lemma startswith_app (p r : str) : startswith p (p ++ r) = true.
Proof.
  induction p as [|a p IH]; simpl; [done|].
  by rewrite N.eqb_refl.
Qed.

Lemma startswith_inv (p s : str) :
  startswith p s = true -> exists r, s = p ++ r.
Proof.
  revert s. induction p as [|a p IH]; intros s H.
  - by exists s.
  - destruct s as [|b s]; simpl in H; [done|].
    apply andb_true_iff in H as [Hab Hps].
    apply N.eqb_eq in Hab as ->.
    destruct (IH _ Hps) as [r ->]. by exists r.
Qed.

Lemma startswith_spec (p s : str) :
  startswith p s = true <-> exists r, s = p ++ r.
Proof.
  split; [apply startswith_inv|].
  intros [r ->]. apply startswith_app.
Qed.

Lemma occurs_spec (p s : str) : occurs p s = true <-> Occ p s.
Proof.
  unfold Occ. induction s as [|c s IH]; simpl.
  - rewrite orb_false_r. split.
    + intros H. apply startswith_inv in H as [r Hr].
      exists [], r. done.
    + intros (a & b & H). symmetry in H.
      apply app_eq_nil in H as [-> H]. apply app_eq_nil in H as [-> _]. done.
  - rewrite orb_true_iff, IH. split.
    + intros [H | (a & b & ->)].
      * apply startswith_inv in H as [r Hr]. exists [], r. done.
      * exists (c :: a), b. done.
    + intros (a & b & H). destruct a as [|a0 a].
      * left. simpl in H. rewrite H. apply startswith_app.
      * right. simpl in H. injection H as _ ->. by exists a, b.
Qed.

Lemma occurs_false (p s : str) : occurs p s = false <-> ~ Occ p s.
Proof.
  rewrite <- occurs_spec. destruct (occurs p s); split; congruence.
Qed.

Lemma Occ_app_l (p x y : str) : Occ p x -> Occ p (x ++ y).
Proof.
  intros (a & b & ->). exists a, (b ++ y). by rewrite <- !app_assoc.
Qed.

Lemma Occ_app_r (p x y : str) : Occ p y -> Occ p (x ++ y).
Proof.
  intros (a & b & ->). exists (x ++ a), b. by rewrite <- !app_assoc.
Qed.

(** An occurrence of [f] cannot contain a character that [f] lacks. *)
Lemma Occ_sep (f x y : str) (c : N) :
  f <> [] -> c ∉ f -> Occ f (x ++ c :: y) -> Occ f x \/ Occ f y.
Proof.
  intros Hne Hc (a & b & H).
  apply app_eq_inv in H as [(k & -> & H) | (k & -> & H)].
  - symmetry in H. apply app_eq_inv in H as [(k' & -> & H) | (k' & -> & H)].
    + left. exists a, k'. done.
    + destruct k' as [|c' k'].
      * left. exists a, []. by rewrite !app_nil_r.
      * simpl in H. injection H as <- _.
        exfalso. apply Hc. set_solver.
  - destruct k as [|c' k].
    + simpl in H. destruct f as [|f0 f]; [done|].
      simpl in H. injection H as <- _. exfalso. apply Hc. set_solver.
    + simpl in H. injection H as _ ->. right. by exists k, b.
Qed.

Lemma bracket_free_spec (f : str) :
  bracket_free f = true -> (LBRACKET ∉ f) /\ (RBRACKET ∉ f).
Proof.
  induction f as [|c f IH]; simpl.
  - intros _. split; apply not_elem_of_nil.
  - intros H. apply andb_true_iff in H as [Hc Hf].
    apply andb_true_iff in Hc as [Hl Hr].
    apply negb_true_iff, N.eqb_neq in Hl, Hr.
    destruct (IH Hf) as [IHl IHr].
    split; rewrite not_elem_of_cons; split; auto.
Qed.

(** ** Equations of [replace_scan] *)

Lemma replace_scan_skip (old new x r : str) :
  replace_scan old new (length x) (x ++ r) = replace_scan old new 0 r.
Proof.
  induction x as [|c x IH]; simpl; [|done].
  destruct r; done.
Qed.

Lemma replace_scan_nil (old new : str) (k : nat) : replace_scan old new k [] = [].
Proof. done. Qed.

Lemma replace_scan_match (old new r : str) :
  old <> [] ->
  replace_scan old new 0 (old ++ r) = new ++ replace_scan old new 0 r.
Proof.
  intros Hne. destruct old as [|c o]; [done|].
  change ((c :: o) ++ r) with (c :: (o ++ r)).
  cbn [replace_scan].
  change (c :: o ++ r) with ((c :: o) ++ r).
  rewrite startswith_app.
  replace (length (c :: o) - 1) with (length o) by (simpl; lia).
  by rewrite replace_scan_skip.
Qed.

Lemma replace_scan_nomatch (old new s : str) (c : N) :
  startswith old (c :: s) = false ->
  replace_scan old new 0 (c :: s) = c :: replace_scan old new 0 s.
Proof. intros H. cbn [replace_scan]. by rewrite H. Qed.

Lemma replace_nonempty (s old new : str) :
  old <> [] -> replace s old new = replace_scan old new 0 s.
Proof. destruct old; done. Qed.

(** Strong induction on a string, following the scan: either the string
    is empty, or it starts with [old], or its first character is kept. *)
Lemma scan_ind (old : str) (Hne : old <> []) (P : str -> Prop) :
  P [] ->
  (forall r, P r -> P (old ++ r)) ->
  (forall c s, startswith old (c :: s) = false -> P s -> P (c :: s)) ->
  forall s, P s.
Proof.
  intros Hnil Hmatch Hkeep s.
  remember (length s) as n eqn:Hn. revert s Hn.
  induction n as [n IH] using lt_wf_ind. intros s Hn.
  destruct s as [|c s]; [done|].
  destruct (startswith old (c :: s)) eqn:Hsw.
  - apply startswith_inv in Hsw as [r Hr]. rewrite Hr.
    apply Hmatch. apply (IH (length r)); [|done].
    rewrite Hn, Hr, length_app. destruct old; [done|]. simpl. lia.
  - apply Hkeep; [done|]. apply (IH (length s)); [|done].
    rewrite Hn. simpl. lia.
Qed.

(** ** What one masking step does to occurrences *)

Section masking_step.
Variables (f old inner : str).
Hypothesis f_nonempty : f <> [].
Hypothesis f_no_lbracket : LBRACKET ∉ f.
Hypothesis f_no_rbracket : RBRACKET ∉ f.
Hypothesis f_not_in_token : ~ Occ f inner.
Hypothesis old_nonempty : old <> [].

Let token : str := LBRACKET :: inner ++ [RBRACKET].

(** Gluing a bracketed token between two [f]-free strings creates no
    occurrence of [f]. *)
Lemma token_glue (x y : str) :
  ~ Occ f x -> ~ Occ f y -> ~ Occ f (x ++ token ++ y).
Proof using f_nonempty f_no_lbracket f_no_rbracket f_not_in_token.
  intros Hx Hy H. unfold token in H. simpl in H.
  apply Occ_sep in H as [H | H]; [done | | done | done].
  rewrite <- app_assoc in H. simpl in H.
  apply Occ_sep in H as [H | H]; done.
Qed.

(** Replacing [old] by a token never brings [f] into a text that had no
    occurrence of it. *)
Lemma replace_keeps_free (s x : str) :
  ~ Occ f (x ++ s) -> ~ Occ f (x ++ replace s old token).
Proof using f_nonempty f_no_lbracket f_no_rbracket f_not_in_token old_nonempty.
  rewrite replace_nonempty by done.
  revert x. induction s as [|r IH|c s Hsw IH] using (scan_ind old old_nonempty).
  - done.
  - intros x Hx. rewrite replace_scan_match by done.
    apply token_glue.
    + intros H. apply Hx. by apply Occ_app_l.
    + apply (IH []). intros H. apply Hx. by do 2 apply Occ_app_r.
  - intros x Hx. rewrite replace_scan_nomatch by done.
    change (x ++ c :: replace_scan old token 0 s)
      with (x ++ [c] ++ replace_scan old token 0 s).
    rewrite app_assoc. apply IH. by rewrite <- app_assoc.
Qed.

End masking_step.

Section masking_own.
Variables (old inner : str).
Hypothesis old_nonempty : old <> [].
Hypothesis old_no_lbracket : LBRACKET ∉ old.
Hypothesis old_no_rbracket : RBRACKET ∉ old.
Hypothesis old_not_in_token : ~ Occ old inner.

Let token : str := LBRACKET :: inner ++ [RBRACKET].

(** After [replace s old token] no occurrence of [old] is left.  The
    prefix [x] stands for the characters the scan has already kept: no
    occurrence of [old] in [x ++ s] starts inside [x]. *)
Lemma replace_removes_old_gen (s x : str) :
  (forall a b, x ++ s = a ++ old ++ b -> length x <= length a) ->
  ~ Occ old (x ++ replace s old token).
Proof using old_nonempty old_no_lbracket old_no_rbracket old_not_in_token.
  rewrite replace_nonempty by done.
  revert x. induction s as [|r IH|c s Hsw IH] using (scan_ind old old_nonempty).
  - intros x Hx (a & b & H). rewrite replace_scan_nil in H.
    specialize (Hx a b H).
    apply (f_equal length) in H. rewrite !length_app in H.
    destruct old; [done|]. simpl in *. lia.
  - intros x Hx. rewrite replace_scan_match by done.
    apply token_glue; try done.
    + intros (a & b & ->).
      specialize (Hx a (b ++ old ++ r)).
      rewrite <- !app_assoc in Hx. specialize (Hx eq_refl).
      rewrite !length_app in Hx. destruct old; [done|]. simpl in *. lia.
    + apply (IH []). intros a b _. simpl. lia.
  - intros x Hx. rewrite replace_scan_nomatch by done.
    change (x ++ c :: replace_scan old token 0 s)
      with (x ++ [c] ++ replace_scan old token 0 s).
    rewrite app_assoc. apply IH. intros a b H.
    rewrite <- app_assoc in H. simpl in H.
    pose proof (Hx a b H) as Hle.
    rewrite length_app. simpl.
    destruct (decide (length x = length a)) as [Heq | Hneq]; [|lia].
    exfalso.
    apply app_inj_1 in H as [_ H]; [|done].
    assert (startswith old (c :: s) = true) as Hs
      by (rewrite H; apply startswith_app).
    congruence.
Qed.

Lemma replace_removes_old (s : str) : ~ Occ old (replace s old token).
Proof using old_nonempty old_no_lbracket old_no_rbracket old_not_in_token.
  apply (replace_removes_old_gen s []). intros a b _. simpl. lia.
Qed.

End masking_own.

(** ** Tokens are barriers for the scan

    When the first character of [old] occurs nowhere else in [old], a
    match cannot run from a text into a following piece that starts
    with that same character: the scan treats the two sides separately. *)

Lemma replace_scan_barrier (h : N) (t new a r : str) :
  h ∉ t ->
  (r = [] \/ exists r', r = h :: r') ->
  replace_scan (h :: t) new 0 (a ++ r)
  = replace_scan (h :: t) new 0 a ++ replace_scan (h :: t) new 0 r.
Proof.
  intros Ht Hr.
  assert (h :: t <> []) as Hne by done.
  induction a as [|a' IH|c s Hsw IH] using (scan_ind (h :: t) Hne).
  - done.
  - rewrite <- app_assoc. rewrite !replace_scan_match by done.
    by rewrite IH, app_assoc.
  - assert (startswith (h :: t) (c :: s ++ r) = false) as Hsw'.
    { destruct (startswith (h :: t) (c :: s ++ r)) eqn:Hs; [|done].
      exfalso. apply startswith_inv in Hs as [z Hz].
      simpl in Hz. injection Hz as -> Hz.
      apply app_eq_inv in Hz as [(k & -> & Hk) | (k & -> & Hk)].
      - assert (startswith (h :: t) (h :: t ++ k) = true) as Hs'
          by apply (startswith_app (h :: t) k).
        congruence.
      - destruct k as [|k0 k].
        + rewrite app_nil_r in Hsw.
          assert (startswith (h :: s) (h :: s) = true) as Hs'.
          { pose proof (startswith_app (h :: s) []) as Hs'.
            by rewrite app_nil_r in Hs'. }
          congruence.
        + destruct Hr as [-> | [r' ->]]; [done|].
          simpl in Hk. injection Hk as <- _.
          apply Ht. set_solver. }
    change ((c :: s) ++ r) with (c :: s ++ r).
    rewrite !replace_scan_nomatch by done.
    by rewrite IH.
Qed.

Lemma NAME_TOKEN_unfold : NAME_TOKEN = LBRACKET :: lit "NAME]".
Proof. reflexivity. Qed.

Lemma lbracket_not_in_name_tail : LBRACKET ∉ lit "NAME]".
Proof.
  intros H. vm_compute in H.
  repeat (apply elem_of_cons in H as [H | H]; [done|]).
  by apply not_elem_of_nil in H.
Qed.

Lemma replace_name_over_name (name a b : str) :
  replace (a ++ NAME_TOKEN ++ b) NAME_TOKEN name
  = replace a NAME_TOKEN name ++ name ++ replace b NAME_TOKEN name.
Proof.
  rewrite !replace_nonempty by done.
  rewrite NAME_TOKEN_unfold.
  rewrite replace_scan_barrier.
  - f_equal.
  - apply lbracket_not_in_name_tail.
  - right. by eexists.
Qed.

Lemma replace_name_over_email (name a b : str) :
  replace (a ++ EMAIL_TOKEN ++ b) NAME_TOKEN name
  = replace a NAME_TOKEN name ++ EMAIL_TOKEN ++ replace b NAME_TOKEN name.
Proof.
  rewrite !replace_nonempty by done.
  rewrite NAME_TOKEN_unfold.
  rewrite replace_scan_barrier.
  - f_equal.
  - apply lbracket_not_in_name_tail.
  - right. by eexists.
Qed.

Lemma replace_name_over_phone (name a b : str) :
  replace (a ++ PHONE_TOKEN ++ b) NAME_TOKEN name
  = replace a NAME_TOKEN name ++ PHONE_TOKEN ++ replace b NAME_TOKEN name.
Proof.
  rewrite !replace_nonempty by done.
  rewrite NAME_TOKEN_unfold.
  rewrite replace_scan_barrier.
  - f_equal.
  - apply lbracket_not_in_name_tail.
  - right. by eexists.
Qed.

(** ** The PII masker *)

Lemma maskable_inv (f : str) (words : list str) :
  maskable f words = true ->
  f <> [] /\ (LBRACKET ∉ f) /\ (RBRACKET ∉ f) /\
  forall w, w ∈ words -> ~ Occ f w.
Proof.
  unfold maskable. intros H.
  apply andb_true_iff in H as [H Hw]. apply andb_true_iff in H as [Hne Hb].
  destruct (bracket_free_spec f Hb) as [Hl Hr].
  repeat split; try done.
  - by destruct f.
  - intros w Hin. apply occurs_false.
    rewrite forallb_forall in Hw.
    apply negb_true_iff, Hw. by apply list_elem_of_In.
Qed.

Lemma mask_pii_active (ss : SessionState) (info : gmap str str)
    (name email phone text : str) :
  user_info ss = Some info ->
  info !! lit "name" = Some name ->
  info !! lit "email" = Some email ->
  info !! lit "phone" = Some phone ->
  mask_pii ss text
  = replace (replace (replace text name NAME_TOKEN) email EMAIL_TOKEN)
      phone PHONE_TOKEN.
Proof.
  intros Hss Hn He Hp. unfold mask_pii, dict_get.
  by rewrite Hss, Hn, He, Hp.
Qed.

Lemma unmask_name_active (ss : SessionState) (info : gmap str str)
    (name t : str) :
  user_info ss = Some info ->
  info !! lit "name" = Some name ->
  unmask_name ss t = Ok (replace t NAME_TOKEN name).
Proof.
  intros Hss Hn. unfold unmask_name, getitem. by rewrite Hss, Hn.
Qed.

(** C1 (as amended): for an active profile whose name, e-mail and phone
    are non-empty, hold no square bracket and are not a piece of a
    placeholder word that is substituted at or after their own step
    (the name of NAME, EMAIL or PHONE; the e-mail of EMAIL or PHONE; the
    phone of PHONE), [mask_pii] is the three replacements in the order
    name, e-mail, phone, and its output has no occurrence of any of the
    three values.  [unmask_name] then succeeds and replaces [[NAME]] by
    the name; it works on each side of a [[NAME]], [[EMAIL]] or
    [[PHONE]] token separately, turning the first into the name and
    leaving the other two in place. *)
Theorem mask_pii_contract (ss : SessionState) (info : gmap str str)
    (name email phone text : str) :
  user_info ss = Some info ->
  info !! lit "name" = Some name ->
  info !! lit "email" = Some email ->
  info !! lit "phone" = Some phone ->
  maskable name [lit "NAME"; lit "EMAIL"; lit "PHONE"] = true ->
  maskable email [lit "EMAIL"; lit "PHONE"] = true ->
  maskable phone [lit "PHONE"] = true ->
  let masked := mask_pii ss text in
  masked = replace (replace (replace text name NAME_TOKEN) email EMAIL_TOKEN)
             phone PHONE_TOKEN
  /\ occurs name masked = false
  /\ occurs email masked = false
  /\ occurs phone masked = false
  /\ unmask_name ss masked = Ok (replace masked NAME_TOKEN name)
  /\ (forall a b ua ub,
        unmask_name ss a = Ok ua -> unmask_name ss b = Ok ub ->
        unmask_name ss (a ++ NAME_TOKEN ++ b) = Ok (ua ++ name ++ ub)
        /\ unmask_name ss (a ++ EMAIL_TOKEN ++ b) = Ok (ua ++ EMAIL_TOKEN ++ ub)
        /\ unmask_name ss (a ++ PHONE_TOKEN ++ b) = Ok (ua ++ PHONE_TOKEN ++ ub)).
Proof.
  intros Hss Hn He Hp Mn Me Mp masked.
  assert (masked = replace (replace (replace text name NAME_TOKEN) email
                     EMAIL_TOKEN) phone PHONE_TOKEN) as Hm
    by (by apply (mask_pii_active ss info)).
  apply maskable_inv in Mn as (Nne & Nl & Nr & Nw).
  apply maskable_inv in Me as (Ene & El & Er & Ew).
  apply maskable_inv in Mp as (Pne & Pl & Pr & Pw).
  assert (~ Occ name (lit "NAME")) as NN by (apply Nw; set_solver).
  assert (~ Occ name (lit "EMAIL")) as NE by (apply Nw; set_solver).
  assert (~ Occ name (lit "PHONE")) as NP by (apply Nw; set_solver).
  assert (~ Occ email (lit "EMAIL")) as EE by (apply Ew; set_solver).
  assert (~ Occ email (lit "PHONE")) as EP by (apply Ew; set_solver).
  assert (~ Occ phone (lit "PHONE")) as PP by (apply Pw; set_solver).
  set (m1 := replace text name NAME_TOKEN) in *.
  set (m2 := replace m1 email EMAIL_TOKEN) in *.
  assert (~ Occ name m1) as N1
    by apply (replace_removes_old name (lit "NAME") Nne Nl Nr NN text).
  assert (~ Occ name m2) as N2
    by apply (replace_keeps_free name email (lit "EMAIL") Nne Nl Nr NE Ene m1 [] N1).
  assert (~ Occ email m2) as E2
    by apply (replace_removes_old email (lit "EMAIL") Ene El Er EE m1).
  split; [done|]. rewrite Hm.
  split; [|split; [|split; [|split]]].
  - apply occurs_false.
    apply (replace_keeps_free name phone (lit "PHONE") Nne Nl Nr NP Pne m2 [] N2).
  - apply occurs_false.
    apply (replace_keeps_free email phone (lit "PHONE") Ene El Er EP Pne m2 [] E2).
  - apply occurs_false.
    apply (replace_removes_old phone (lit "PHONE") Pne Pl Pr PP m2).
  - by apply (unmask_name_active ss info).
  - intros a b ua ub Ha Hb.
    rewrite !(unmask_name_active ss info name) in * by done.
    injection Ha as <-. injection Hb as <-.
    by rewrite replace_name_over_name, replace_name_over_email,
      replace_name_over_phone.
Qed.

(** The profile and text of the masking example, checked through
    [mask_pii_contract]. *)
Lemma mask_pii_contract_witness :
  let ss := complete_onboarding (lit "Ana Li") (lit "ana@x.com") (lit "5551234")
              (init_session fresh_session) in
  let text := lit "I am Ana Li, mail ana@x.com or call 5551234." in
  let masked := mask_pii ss text in
  masked = replace (replace (replace text (lit "Ana Li") NAME_TOKEN)
                      (lit "ana@x.com") EMAIL_TOKEN) (lit "5551234") PHONE_TOKEN
  /\ occurs (lit "Ana Li") masked = false
  /\ occurs (lit "ana@x.com") masked = false
  /\ occurs (lit "5551234") masked = false
  /\ unmask_name ss masked = Ok (replace masked NAME_TOKEN (lit "Ana Li"))
  /\ (forall a b ua ub,
        unmask_name ss a = Ok ua -> unmask_name ss b = Ok ub ->
        unmask_name ss (a ++ NAME_TOKEN ++ b) = Ok (ua ++ lit "Ana Li" ++ ub)
        /\ unmask_name ss (a ++ EMAIL_TOKEN ++ b) = Ok (ua ++ EMAIL_TOKEN ++ ub)
        /\ unmask_name ss (a ++ PHONE_TOKEN ++ b) = Ok (ua ++ PHONE_TOKEN ++ ub)).
Proof.
  apply (mask_pii_contract _
           (new_user (lit "Ana Li") (lit "ana@x.com") (lit "5551234"))
           (lit "Ana Li") (lit "ana@x.com") (lit "5551234"));
    vm_compute; reflexivity.
Defined.

(** C1 (as stated) fails: a one-letter name that is part of the word
    NAME is still present after masking. *)
Lemma mask_pii_keeps_short_name :
  let ss := complete_onboarding (lit "A") (lit "a@b.co") (lit "1234567")
              (init_session fresh_session) in
  user_info ss = Some (new_user (lit "A") (lit "a@b.co") (lit "1234567"))
  /\ truthy (lit "A") && truthy (lit "a@b.co") && truthy (lit "1234567") = true
  /\ mask_pii ss (lit "A") = lit "[NAME]"
  /\ occurs (lit "A") (mask_pii ss (lit "A")) = true.
Proof. vm_compute. repeat split. Qed.



(** The empty profile of a signed-out session is not the absent one:
    there the guard of [mask_pii] is true, every field defaults to the
    empty string and the placeholders are inserted around every
    character.  The script runs no pipeline in that state. *)
Lemma mask_pii_empty_profile :
  let ss := init_session fresh_session in
  user_info ss = Some ∅
  /\ onboarding_complete ss = Some false
  /\ replace (lit "hi") [] NAME_TOKEN = lit "[NAME]h[NAME]i[NAME]"
  /\ mask_pii ss (lit "hi") <> lit "hi"
  /\ length (mask_pii ss (lit "hi")) = 1343
  /\ startswith (lit "[PHONE][[PHONE]E[PHONE]M") (mask_pii ss (lit "hi")) = true.
Proof.
  vm_compute. repeat split. discriminate.
Qed.

(** ** The query pipeline *)

Lemma unavailable_has_no_name_token (name : str) :
  replace UNAVAILABLE NAME_TOKEN name = UNAVAILABLE.
Proof. reflexivity. Qed.

Section pipeline_properties.
Context `{E : External}.

Lemma unmask_name_total (ss : SessionState) (t : str) :
  name_available ss -> exists u, unmask_name ss t = Ok u.
Proof.
  intros [H | (info & name & H & Hn)]; unfold unmask_name, getitem; rewrite H.
  - by eexists.
  - rewrite Hn. by eexists.
Qed.

Lemma unmask_name_unavailable (ss : SessionState) :
  name_available ss -> unmask_name ss UNAVAILABLE = Ok UNAVAILABLE.
Proof.
  intros [H | (info & name & H & Hn)]; unfold unmask_name, getitem; rewrite H.
  - done.
  - rewrite Hn. reflexivity.
Qed.

Lemma retrieval_node_ok (ss : SessionState) (state : State) (q : str)
    (docs : list Document) :
  question state = Some q ->
  retriever_invoke (mask_pii ss q) = Ok docs ->
  retrieval_node ss state
  = Ok (mkState (question state) (route state) (Some (context_of docs))
          (answer state)).
Proof.
  intros Hq Hr. unfold retrieval_node. rewrite Hq. simpl. rewrite Hr. done.
Qed.

(** C3 (as amended): [output_node] never raises because of the model:
    whatever the state, it returns a state with an answer, and when the
    model call raises the answer is the fixed message.  The whole
    pipeline returns a state with an answer (and the question and the
    context, the three channels of the graph) for every query on which
    the retriever call returns; an exception of the retriever call is
    not caught and is the outcome of the pipeline. *)
Theorem generation_failure_is_caught (ss : SessionState) :
  name_available ss ->
  (forall state, exists a,
      output_node ss state
      = Ok (mkState (question state) (route state) (context state) (Some a)))
  /\ (forall state ctx q e,
        context state = Some ctx -> question state = Some q ->
        llm_invoke (mask_pii ss (prompt_of ctx q)) = Raise e ->
        output_node ss state
        = Ok (mkState (question state) (route state) (context state)
                (Some UNAVAILABLE)))
  /\ (forall q docs,
        retriever_invoke (mask_pii ss q) = Ok docs ->
        (exists a,
            ask ss q = Ok (mkState (Some q) None (Some (context_of docs))
                             (Some a)))
        /\ (forall e,
              llm_invoke (mask_pii ss (prompt_of (context_of docs) q)) = Raise e ->
              ask ss q = Ok (mkState (Some q) None (Some (context_of docs))
                               (Some UNAVAILABLE))))
  /\ (forall q e,
        retriever_invoke (mask_pii ss q) = Raise e -> ask ss q = Raise e).
Proof.
  intros Hname.
  assert (forall state ctx q e,
            context state = Some ctx -> question state = Some q ->
            llm_invoke (mask_pii ss (prompt_of ctx q)) = Raise e ->
            output_node ss state
            = Ok (mkState (question state) (route state) (context state)
                    (Some UNAVAILABLE))) as Hcaught.
  { intros state ctx q e Hc Hq Hllm. unfold output_node.
    rewrite Hc, Hq. simpl. rewrite Hllm. simpl.
    by rewrite (unmask_name_unavailable ss Hname). }
  assert (forall state, exists a,
            output_node ss state
            = Ok (mkState (question state) (route state) (context state)
                    (Some a))) as Htotal.
  { intros state. unfold output_node.
    match goal with |- context [unmask_name ss ?g] =>
      destruct (unmask_name_total ss g Hname) as [u ->] end.
    by exists u. }
  split; [done|]. split; [done|]. split.
  - intros q docs Hr.
    assert (app_invoke ss (mkState (Some q) None None None)
            = (s3 ← output_node ss (mkState (Some q) None
                                      (Some (context_of docs)) None);
               mret (channels s3))) as Hinv.
    { unfold app_invoke, router_node, channels. simpl.
      by rewrite (retrieval_node_ok ss _ q docs). }
    unfold ask. rewrite Hinv. split.
    + destruct (Htotal (mkState (Some q) None (Some (context_of docs)) None))
        as [a ->].
      by exists a.
    + intros e Hllm.
      by rewrite (Hcaught (mkState (Some q) None (Some (context_of docs)) None)
                    (context_of docs) q e).
  - intros q e Hr.
    unfold ask, app_invoke, router_node, channels, retrieval_node. simpl.
    by rewrite Hr.
Qed.

(** C4: when the retriever returns no document, [retrieval_node] stores
    Python's [None] as the context: a value that is neither the empty
    string nor the join of any list of documents.  [None] is stored for
    the empty result only. *)
Theorem retrieval_no_result_sentinel (ss : SessionState) (state : State)
    (q : str) :
  question state = Some q ->
  retriever_invoke (mask_pii ss q) = Ok [] ->
  retrieval_node ss state
  = Ok (mkState (question state) (route state) (Some PyNone) (answer state))
  /\ PyNone <> PyStr []
  /\ (forall docs, PyNone <> PyStr (join nl (map page_content docs)))
  /\ (forall state2 q2 docs state',
        question state2 = Some q2 ->
        retriever_invoke (mask_pii ss q2) = Ok docs ->
        retrieval_node ss state2 = Ok state' ->
        (context state' = Some PyNone <-> docs = [])).
Proof.
  intros Hq Hr. split; [|split; [|split]]; try done.
  - by rewrite (retrieval_node_ok ss state q []).
  - intros state2 q2 docs state' Hq2 Hd Hn.
    rewrite (retrieval_node_ok ss state2 q2 docs) in Hn by done.
    injection Hn as <-. simpl. destruct docs; split; intros H; done.
Qed.

End pipeline_properties.

Lemma ana_session_name_available : name_available ana_session.
Proof.
  right. exists (new_user (lit "Ana Li") (lit "ana@x.com") (lit "5551234")).
  exists (lit "Ana Li"). split; reflexivity.
Defined.

(** With the model down and a signed-in user, the question "hi" is
    answered by the fixed message. *)
Lemma generation_failure_is_caught_witness :
  name_available ana_session
  /\ @ask sample_external ana_session (lit "hi")
     = Ok (mkState (Some (lit "hi")) None (Some PyNone) (Some UNAVAILABLE))
  /\ @ask offline_external ana_session (lit "hi") = Raise (LibraryError 2).
Proof.
  split; [exact ana_session_name_available|].
  destruct (@generation_failure_is_caught sample_external ana_session
              ana_session_name_available) as (_ & _ & H & _).
  destruct (H (lit "hi") [] eq_refl) as [_ H2].
  split; [exact (H2 (LibraryError 1) eq_refl)|].
  destruct (@generation_failure_is_caught offline_external ana_session
              ana_session_name_available) as (_ & _ & _ & H4).
  exact (H4 (lit "hi") (LibraryError 2) eq_refl).
Defined.

(** C3 (as stated) fails: an exception of the retriever call is raised
    outside the [try] of [output_node] and reaches the caller; the
    pipeline returns no state and no answer. *)
Lemma retrieval_failure_propagates :
  @ask offline_external ana_session (lit "hi") = Raise (LibraryError 2)
  /\ ~ (exists final, @ask offline_external ana_session (lit "hi") = Ok final).
Proof.
  split; [reflexivity|]. intros [final H]. discriminate H.
Qed.

Lemma retrieval_no_result_sentinel_witness :
  @retrieval_node sample_external ana_session
    (mkState (Some (lit "what is the weather today?")) (Some (lit "RETRIEVAL"))
       None None)
  = Ok (mkState (Some (lit "what is the weather today?"))
          (Some (lit "RETRIEVAL")) (Some PyNone) None)
  /\ PyNone <> PyStr [].
Proof.
  destruct (@retrieval_no_result_sentinel sample_external ana_session
              (mkState (Some (lit "what is the weather today?"))
                 (Some (lit "RETRIEVAL")) None None)
              (lit "what is the weather today?") eq_refl eq_refl)
    as (H1 & H2 & _).
  exact (conj H1 H2).
Defined.

(** ** First occurrences *)

Lemma keep_first_filter (P : str -> Prop) `{!forall x, Decision (P x)}
    (l : list str) :
  filter P (keep_first l) = keep_first (filter P l).
Proof.
  induction l as [|x l IH]; [done|]. simpl.
  destruct (decide (P x)) as [Hx | Hx].
  - rewrite !filter_cons_True by done. simpl. f_equal.
    rewrite <- IH, !list_filter_filter.
    apply list_filter_iff. intros y. tauto.
  - rewrite !filter_cons_False by done.
    rewrite <- IH, list_filter_filter.
    apply list_filter_iff. intros y. split; [tauto|].
    intros Hy. split; [done|]. by intros ->.
Qed.

Lemma keep_first_elem_of (l : list str) (x : str) :
  x ∈ keep_first l <-> x ∈ l.
Proof.
  induction l as [|y l IH]; [done|]. simpl.
  rewrite !elem_of_cons, list_elem_of_filter, IH.
  destruct (decide (x = y)) as [-> | Hne]; tauto.
Qed.

Lemma keep_first_NoDup (l : list str) : NoDup (keep_first l).
Proof.
  induction l as [|x l IH]; simpl; [constructor|].
  apply NoDup_cons. split.
  - rewrite list_elem_of_filter. by intros [Hx _].
  - by apply NoDup_filter.
Qed.

Lemma knowledge_entry_content (text : str) :
  knowledge_entry text !! lit "content" = Some text.
Proof.
  unfold knowledge_entry.
  rewrite lookup_insert_ne by (by vm_compute).
  apply lookup_insert_eq.
Qed.

Lemma knowledge_entry_url (text : str) :
  knowledge_entry text !! lit "url" = Some BASE_URL.
Proof. unfold knowledge_entry. apply lookup_insert_eq. Qed.

Lemma knowledge_entry_dom (text : str) :
  dom (knowledge_entry text) = {[lit "content"; lit "url"]}.
Proof.
  unfold knowledge_entry. rewrite !dom_insert_L, dom_empty_L. set_solver.
Qed.

Lemma knowledge_entry_inj (t1 t2 : str) :
  knowledge_entry t1 = knowledge_entry t2 -> t1 = t2.
Proof.
  intros H. apply (f_equal (fun e => e !! lit "content")) in H.
  rewrite !knowledge_entry_content in H. congruence.
Qed.

(** ** The scraper *)

Section ingestion_properties.
Context `{E : External}.

Lemma visit_tag_kept (data : list (gmap str str)) (seen : gset str) (tag : Tag) :
  long_enough (get_text_strip tag) = true ->
  get_text_strip tag ∉ seen ->
  visit_tag (data, seen) tag
  = (data ++ [knowledge_entry (get_text_strip tag)],
     {[get_text_strip tag]} ∪ seen).
Proof.
  intros Hl Hs. unfold visit_tag. unfold long_enough in Hl.
  by rewrite Hl, bool_decide_true.
Qed.

Lemma visit_tag_dropped (data : list (gmap str str)) (seen : gset str) (tag : Tag) :
  ~ (long_enough (get_text_strip tag) = true /\ get_text_strip tag ∉ seen) ->
  visit_tag (data, seen) tag = (data, seen).
Proof.
  intros H. unfold visit_tag.
  destruct (truthy _ && _ && _) eqn:Hc; [|done].
  exfalso. apply H.
  apply andb_true_iff in Hc as [Hl Hs].
  by apply bool_decide_eq_true in Hs.
Qed.

(** The inner loop, from any pair of accumulators. *)
Lemma foldl_visit_tag (tags : list Tag) (data : list (gmap str str))
    (seen : gset str) :
  fst (foldl visit_tag (data, seen) tags)
  = data ++ map knowledge_entry
      (keep_first (filter (fun t => long_enough t = true /\ t ∉ seen)
                     (map get_text_strip tags))).
Proof.
  revert data seen. induction tags as [|tag tags IH]; intros data seen.
  - simpl. by rewrite app_nil_r.
  - change (foldl visit_tag (data, seen) (tag :: tags))
      with (foldl visit_tag (visit_tag (data, seen) tag) tags).
    change (map get_text_strip (tag :: tags))
      with (get_text_strip tag :: map get_text_strip tags).
    destruct (decide (long_enough (get_text_strip tag) = true
                      /\ get_text_strip tag ∉ seen)) as [[Hl Hs] | Hno].
    + rewrite visit_tag_kept by done. rewrite IH.
      rewrite filter_cons_True by done. simpl.
      rewrite <- app_assoc. simpl. do 3 f_equal.
      rewrite keep_first_filter, list_filter_filter.
      f_equal. apply list_filter_iff. intros y.
      rewrite not_elem_of_union, not_elem_of_singleton. tauto.
    + rewrite visit_tag_dropped by done. rewrite IH.
      by rewrite filter_cons_False.
Qed.

(** The outer loop visits the matches of all selectors in a row. *)
Lemma foldl_selectors (html : str) (sels : list str)
    (acc : list (gmap str str) * gset str) :
  foldl (fun acc sel => foldl visit_tag acc (soup_select html sel)) acc sels
  = foldl visit_tag acc (concat (map (soup_select html) sels)).
Proof.
  revert acc. induction sels as [|sel sels IH]; intros acc; [done|].
  simpl. by rewrite foldl_app, IH.
Qed.

Lemma all_texts_concat (html : str) :
  all_texts html
  = map get_text_strip (concat (map (soup_select html) selectors)).
Proof.
  unfold all_texts. by rewrite concat_map, map_map.
Qed.

(** The loops of the scraper compute the first occurrences of the long
    enough texts. *)
Lemma select_entries_spec (html : str) :
  select_entries html
  = map knowledge_entry (keep_first (filter (fun t => long_enough t = true)
                                       (all_texts html))).
Proof.
  unfold select_entries. rewrite foldl_selectors, foldl_visit_tag.
  simpl. rewrite all_texts_concat. do 2 f_equal.
  apply list_filter_iff. intros y. split; [tauto|].
  intros Hy. split; [done|]. apply not_elem_of_empty.
Qed.

(** Each stage returns at once when its output is there. *)
Lemma scrape_occams_skip (w : World) :
  is_Some (knowledge_json (files w)) ->
  scrape_occams w
  = (Ok tt, mkWorld (files w) (trace w ++ [PathExists KNOWLEDGE_FILE])).
Proof. intros H. run_io. by rewrite bool_decide_true. Qed.

Lemma make_chunks_skip (w : World) :
  is_Some (chunks_json (files w)) ->
  make_chunks w
  = (Ok tt, mkWorld (files w) (trace w ++ [PathExists CHUNKS_FILE])).
Proof. intros H. run_io. by rewrite bool_decide_true. Qed.

Lemma build_embeddings_skip (w : World) :
  is_Some (faiss_index (files w)) ->
  build_embeddings w
  = (Ok tt, mkWorld (files w) (trace w ++ [PathExists VECTORSTORE_PATH])).
Proof. intros H. run_io. by rewrite bool_decide_true. Qed.

(** C5: with the three artifacts present, the ingestion run consists of
    the three existence checks and nothing else: no browser call, no
    file read or write, no embedding, and the files are the same
    afterwards.  Each stage alone returns right after its own check. *)
Theorem ingest_idempotent (w : World) :
  is_Some (knowledge_json (files w)) ->
  is_Some (chunks_json (files w)) ->
  is_Some (faiss_index (files w)) ->
  ingest w
  = (Ok tt,
     mkWorld (files w)
       (trace w ++ [PathExists KNOWLEDGE_FILE; PathExists CHUNKS_FILE;
                    PathExists VECTORSTORE_PATH]))
  /\ scrape_occams w
     = (Ok tt, mkWorld (files w) (trace w ++ [PathExists KNOWLEDGE_FILE]))
  /\ make_chunks w
     = (Ok tt, mkWorld (files w) (trace w ++ [PathExists CHUNKS_FILE]))
  /\ build_embeddings w
     = (Ok tt, mkWorld (files w) (trace w ++ [PathExists VECTORSTORE_PATH])).
Proof.
  intros Hk Hc Hf.
  split; [|by rewrite scrape_occams_skip, make_chunks_skip,
                build_embeddings_skip].
  unfold ingest, mbind, IO_bind.
  rewrite scrape_occams_skip by done.
  rewrite make_chunks_skip by done.
  rewrite build_embeddings_skip by done.
  simpl. by rewrite <- !app_assoc.
Qed.

(** A build that starts without [knowledge.json] and whose browser calls
    succeed writes the selected entries. *)
Lemma scrape_occams_build (w : World) :
  knowledge_json (files w) = None ->
  chrome_launch = Ok tt ->
  driver_get BASE_URL = Ok tt ->
  scrape_occams w
  = (Ok tt,
     mkWorld (set_knowledge_json (select_entries page_source) (files w))
       (trace w ++
        [PathExists KNOWLEDGE_FILE; ChromeLaunch; DriverGet BASE_URL; Sleep 5;
         ExecuteScript (lit "window.scrollTo(0, document.body.scrollHeight);");
         Sleep 2; PageSource; DriverQuit; FileWrite KNOWLEDGE_FILE])).
Proof.
  intros Hk Hl Hg. run_io. rewrite Hk.
  rewrite bool_decide_false by (by intros [? ?]).
  rewrite Hl, Hg. simpl. by rewrite <- !app_assoc.
Qed.

(** Whatever the browser does, a build that starts without
    [knowledge.json] leaves it absent or holding the selected entries. *)
Lemma scrape_occams_outcome (w w' : World) (r : result unit) :
  knowledge_json (files w) = None ->
  scrape_occams w = (r, w') ->
  knowledge_json (files w') = None
  \/ knowledge_json (files w') = Some (select_entries page_source).
Proof.
  intros Hk. run_io. rewrite Hk.
  rewrite bool_decide_false by (by intros [? ?]).
  destruct chrome_launch as [[]|e1]; simpl.
  - destruct (driver_get BASE_URL) as [[]|e2]; simpl.
    + intros [= <- <-]. by right.
    + intros [= <- <-]. by left.
  - intros [= <- <-]. by left.
Qed.

Lemma persisted_entries (w w' : World) (r : result unit)
    (entries : list (gmap str str)) :
  knowledge_json (files w) = None ->
  scrape_occams w = (r, w') ->
  knowledge_json (files w') = Some entries ->
  entries = map knowledge_entry
              (keep_first (filter (fun t => long_enough t = true)
                             (all_texts page_source))).
Proof.
  intros Hk Hrun He.
  destruct (scrape_occams_outcome w w' r Hk Hrun) as [H | H]; [congruence|].
  rewrite <- select_entries_spec. congruence.
Qed.

Lemma entries_lookup (texts : list str) (i : nat) (e : gmap str str) :
  map knowledge_entry texts !! i = Some e ->
  exists text, texts !! i = Some text /\ e = knowledge_entry text.
Proof.
  revert i. induction texts as [|t texts IH]; intros [|i] H; try done.
  - injection H as <-. by exists t.
  - by apply IH.
Qed.

Lemma entries_elem_of (texts : list str) (e : gmap str str) :
  e ∈ map knowledge_entry texts ->
  exists text, text ∈ texts /\ e = knowledge_entry text.
Proof.
  rewrite list_elem_of_In, in_map_iff. intros (t & <- & Hin).
  exists t. by rewrite list_elem_of_In.
Qed.

(** C6: the entries written by one build are the first occurrences, in
    selector-then-document order, of the texts that pass the length
    filter; no two of them have the same content. *)
Theorem knowledge_contents_unique (w w' : World) (r : result unit)
    (entries : list (gmap str str)) :
  knowledge_json (files w) = None ->
  scrape_occams w = (r, w') ->
  knowledge_json (files w') = Some entries ->
  entries = map knowledge_entry
              (keep_first (filter (fun t => long_enough t = true)
                             (all_texts page_source)))
  /\ (forall i j e1 e2,
        entries !! i = Some e1 -> entries !! j = Some e2 ->
        e1 !! lit "content" = e2 !! lit "content" -> i = j).
Proof.
  intros Hk Hrun He.
  pose proof (persisted_entries w w' r entries Hk Hrun He) as Hspec.
  split; [done|].
  intros i j e1 e2 H1 H2 Hc. rewrite Hspec in H1, H2.
  apply entries_lookup in H1 as (t1 & Ht1 & ->).
  apply entries_lookup in H2 as (t2 & Ht2 & ->).
  rewrite !knowledge_entry_content in Hc. injection Hc as <-.
  eapply NoDup_lookup; [apply keep_first_NoDup | done | done].
Qed.

(** C7: every entry written by a build has a content of more than 30
    characters; a text of 30 characters or fewer is the content of no
    entry. *)
Theorem knowledge_contents_long (w w' : World) (r : result unit)
    (entries : list (gmap str str)) :
  knowledge_json (files w) = None ->
  scrape_occams w = (r, w') ->
  knowledge_json (files w') = Some entries ->
  (forall e, e ∈ entries ->
     exists text, e !! lit "content" = Some text /\ 30 < length text)
  /\ (forall text e,
        length text <= 30 -> e ∈ entries -> e !! lit "content" <> Some text).
Proof.
  intros Hk Hrun He.
  pose proof (persisted_entries w w' r entries Hk Hrun He) as Hspec.
  assert (forall e, e ∈ entries ->
            exists text, e !! lit "content" = Some text /\ 30 < length text)
    as Hlong.
  { intros e Hin. rewrite Hspec in Hin.
    apply entries_elem_of in Hin as (t & Ht & ->).
    exists t. split; [apply knowledge_entry_content|].
    apply keep_first_elem_of, list_elem_of_filter in Ht as [Hl _].
    unfold long_enough in Hl. apply andb_true_iff in Hl as [_ Hl].
    by apply Nat.ltb_lt in Hl. }
  split; [done|].
  intros text e Hshort Hin Hc.
  destruct (Hlong e Hin) as (t & Ht & Hlen).
  rewrite Hc in Ht. injection Ht as <-. lia.
Qed.

(** C9 (as amended): every record written by a build has exactly the
    two keys [content] and [url]; [content] holds the text and [url] the
    seed URL.  There is no key [source]. *)
Theorem knowledge_record_fields (w w' : World) (r : result unit)
    (entries : list (gmap str str)) :
  knowledge_json (files w) = None ->
  scrape_occams w = (r, w') ->
  knowledge_json (files w') = Some entries ->
  forall e, e ∈ entries ->
    dom e = {[lit "content"; lit "url"]}
    /\ (exists text, e !! lit "content" = Some text)
    /\ e !! lit "url" = Some BASE_URL
    /\ e !! lit "source" = None.
Proof.
  intros Hk Hrun He e Hin.
  rewrite (persisted_entries w w' r entries Hk Hrun He) in Hin.
  apply entries_elem_of in Hin as (t & _ & ->).
  split; [apply knowledge_entry_dom|].
  split; [exists t; apply knowledge_entry_content|].
  split; [apply knowledge_entry_url|].
  unfold knowledge_entry.
  rewrite !lookup_insert_ne by (by vm_compute). apply lookup_empty.
Qed.

(** ** The chunker *)



(** ** The chat store *)

(** C10: [save_chat] stores the history under the e-mail and leaves the
    history of every other e-mail as it was; [load_chat] returns the
    empty list when the file is absent or has no entry for the e-mail. *)
Theorem save_chat_frame (w : World) (e : str) (h : list (gmap str str)) :
  let w' := snd (save_chat e h w) in
  fst (save_chat e h w) = Ok tt
  /\ chat_file (files w')
     = Some (<[e := h]> (default ∅ (chat_file (files w))))
  /\ fst (load_chat e w') = Ok h
  /\ (forall e', e' <> e -> fst (load_chat e' w') = fst (load_chat e' w))
  /\ (chat_file (files w) = None -> fst (load_chat e w) = Ok [])
  /\ (forall all_history,
        chat_file (files w) = Some all_history -> all_history !! e = None ->
        fst (load_chat e w) = Ok []).
Proof.
  destruct w as [[k c f u ch] tr]. run_io.
  destruct ch as [m|]; simpl; unfold dict_get.
  - rewrite lookup_insert_eq. repeat split; try done.
    + intros e' Hne. by rewrite lookup_insert_ne.
    + intros m' [= <-] Hm. by rewrite Hm.
  - rewrite lookup_insert_eq. repeat split; try done.
    intros e' Hne. by rewrite lookup_insert_ne, lookup_empty.
Qed.

End ingestion_properties.

(** ** The properties on a sample page *)

Lemma ingest_idempotent_witness :
  is_Some (knowledge_json (files built_world))
  /\ is_Some (chunks_json (files built_world))
  /\ is_Some (faiss_index (files built_world))
  /\ ingest built_world
     = (Ok tt,
        mkWorld (files built_world)
          [PathExists KNOWLEDGE_FILE; PathExists CHUNKS_FILE;
           PathExists VECTORSTORE_PATH]).
Proof.
  assert (is_Some (knowledge_json (files built_world))) as Hk by (by eexists).
  assert (is_Some (chunks_json (files built_world))) as Hc by (by eexists).
  assert (is_Some (faiss_index (files built_world))) as Hf by (by eexists).
  split; [exact Hk|]. split; [exact Hc|]. split; [exact Hf|].
  exact (proj1 (ingest_idempotent built_world Hk Hc Hf)).
Defined.

Lemma sample_scrape :
  @scrape_occams sample_external empty_world
  = (Ok tt,
     mkWorld (mkStore (Some sample_entries) None None None None)
       [PathExists KNOWLEDGE_FILE; ChromeLaunch; DriverGet BASE_URL; Sleep 5;
        ExecuteScript (lit "window.scrollTo(0, document.body.scrollHeight);");
        Sleep 2; PageSource; DriverQuit; FileWrite KNOWLEDGE_FILE]).
Proof. vm_compute. reflexivity. Qed.

Lemma knowledge_contents_unique_witness :
  knowledge_json (files (@empty_world sample_external)) = None
  /\ sample_entries
     = map knowledge_entry
         (keep_first (filter (fun t => long_enough t = true)
                        (@all_texts sample_external sample_page)))
  /\ (forall i j e1 e2,
        sample_entries !! i = Some e1 -> sample_entries !! j = Some e2 ->
        e1 !! lit "content" = e2 !! lit "content" -> i = j).
Proof.
  split; [reflexivity|].
  exact (knowledge_contents_unique empty_world _ _ sample_entries
           eq_refl sample_scrape eq_refl).
Defined.

Lemma knowledge_contents_long_witness :
  knowledge_json (files (@empty_world sample_external)) = None
  /\ (forall e, e ∈ sample_entries ->
        exists text, e !! lit "content" = Some text /\ 30 < length text)
  /\ (forall text e,
        length text <= 30 -> e ∈ sample_entries ->
        e !! lit "content" <> Some text).
Proof.
  split; [reflexivity|].
  exact (knowledge_contents_long empty_world _ _ sample_entries
           eq_refl sample_scrape eq_refl).
Defined.

Lemma knowledge_record_fields_witness :
  knowledge_entry text_a ∈ sample_entries
  /\ dom (knowledge_entry text_a) = {[lit "content"; lit "url"]}
  /\ (exists text, knowledge_entry text_a !! lit "content" = Some text)
  /\ knowledge_entry text_a !! lit "url" = Some BASE_URL
  /\ knowledge_entry text_a !! lit "source" = None.
Proof.
  assert (knowledge_entry text_a ∈ sample_entries) as Hin by apply list_elem_of_here.
  split; [done|].
  exact (knowledge_record_fields empty_world _ _ sample_entries
           eq_refl sample_scrape eq_refl (knowledge_entry text_a) Hin).
Defined.

(** C9 (as stated) fails: the first record of the sample build has a key
    [url] and no key [source]. *)
Lemma knowledge_record_has_no_source :
  knowledge_json (files (snd (@scrape_occams sample_external empty_world)))
  = Some sample_entries
  /\ sample_entries !! 0 = Some (knowledge_entry text_a)
  /\ knowledge_entry text_a !! lit "source" = None
  /\ knowledge_entry text_a !! lit "url" = Some BASE_URL
  /\ dom (knowledge_entry text_a) <> {[lit "content"; lit "source"]}.
Proof.
  split; [by rewrite sample_scrape|].
  split; [done|]. split; [by vm_compute|]. split; [apply knowledge_entry_url|].
  intros H.
  assert (lit "url" ∈ dom (knowledge_entry text_a)) as Hu
    by (rewrite knowledge_entry_dom; set_solver).
  rewrite H in Hu.
  apply elem_of_union in Hu as [Hu | Hu];
    apply elem_of_singleton in Hu; by vm_compute in Hu.
Qed.



Lemma save_chat_frame_witness :
  let w := @empty_world sample_external in
  let w' := snd (save_chat (lit "ana@x.com") [sample_turn] w) in
  chat_file (files w') = Some (<[lit "ana@x.com" := [sample_turn]]> ∅)
  /\ fst (load_chat (lit "ana@x.com") w') = Ok [sample_turn]
  /\ fst (load_chat (lit "bob@x.com") w') = fst (load_chat (lit "bob@x.com") w)
  /\ fst (load_chat (lit "ana@x.com") w) = Ok [].
Proof.
  intros w w'.
  destruct (save_chat_frame w (lit "ana@x.com") [sample_turn])
    as (_ & Hfile & Hload & Hother & Habsent & _).
  split; [exact Hfile|]. split; [exact Hload|].
  split; [|exact (Habsent eq_refl)].
  apply Hother. by vm_compute.
Defined.

(** ** Worked examples *)

Example replace_leftmost :
  replace (lit "aaa") (lit "aa") (lit "b") = lit "ba".
Proof. reflexivity. Qed.

Example replace_empty_pattern :
  replace (lit "abc") [] (lit "-") = lit "-a-b-c-".
Proof. reflexivity. Qed.

Example occurs_substring :
  occurs (lit "na@") (lit "ana@x.com") = true
  /\ occurs (lit "Ana") (lit "ana@x.com") = false.
Proof. split; reflexivity. Qed.

Example mask_round_trip :
  mask_pii ana_session (lit "I am Ana Li, mail ana@x.com or call 5551234.")
  = lit "I am [NAME], mail [EMAIL] or call [PHONE]."
  /\ unmask_name ana_session (lit "I am [NAME], mail [EMAIL] or call [PHONE].")
     = Ok (lit "I am Ana Li, mail [EMAIL] or call [PHONE].").
Proof. split; vm_compute; reflexivity. Qed.

Example logged_out_session :
  logout ana_session = mkSession (Some false) (Some ∅) (Some []) (Some 1).
Proof. reflexivity. Qed.

(** * Further properties of the program *)

(** ** Masking: texts without PII, repeated masking, the name round trip *)

Lemma replace_no_occurrence (s old new : str) :
  old <> [] -> ~ Occ old s -> replace s old new = s.
Proof.
  intros Hne. rewrite replace_nonempty by done.
  induction s as [|r IH|c s Hsw IH] using (scan_ind old Hne); intros Hocc.
  - done.
  - exfalso. apply Hocc. by exists [], r.
  - rewrite replace_scan_nomatch by done. f_equal. apply IH.
    intros H. apply Hocc. by apply (Occ_app_r old [c] s).
Qed.

Lemma truthy_nonempty (s : str) : truthy s = true -> s <> [].
Proof. by destruct s. Qed.

(** X1: a text in which none of the three (non-empty) profile values
    occurs passes through [mask_pii] unchanged. *)
Theorem mask_pii_no_pii (ss : SessionState) (info : gmap str str)
    (name email phone text : str) :
  user_info ss = Some info ->
  info !! lit "name" = Some name ->
  info !! lit "email" = Some email ->
  info !! lit "phone" = Some phone ->
  truthy name = true -> truthy email = true -> truthy phone = true ->
  occurs name text = false ->
  occurs email text = false ->
  occurs phone text = false ->
  mask_pii ss text = text.
Proof.
  intros Hss Hn He Hp Tn Te Tp On Oe Op.
  rewrite (mask_pii_active ss info name email phone) by done.
  apply truthy_nonempty in Tn, Te, Tp. apply occurs_false in On, Oe, Op.
  rewrite (replace_no_occurrence text name) by done.
  rewrite (replace_no_occurrence text email) by done.
  by rewrite (replace_no_occurrence text phone).
Qed.

Lemma mask_pii_no_pii_witness :
  occurs (lit "Ana Li") (lit "What services do you offer?") = false
  /\ mask_pii ana_session (lit "What services do you offer?")
     = lit "What services do you offer?".
Proof.
  split; [reflexivity|].
  apply (mask_pii_no_pii ana_session
           (new_user (lit "Ana Li") (lit "ana@x.com") (lit "5551234"))
           (lit "Ana Li") (lit "ana@x.com") (lit "5551234"));
    reflexivity.
Defined.

(** The three values are gone after masking (shared by the statements
    below). *)
Lemma masked_text_is_clean (name email phone text : str) :
  maskable name [lit "NAME"; lit "EMAIL"; lit "PHONE"] = true ->
  maskable email [lit "EMAIL"; lit "PHONE"] = true ->
  maskable phone [lit "PHONE"] = true ->
  let masked :=
    replace (replace (replace text name NAME_TOKEN) email EMAIL_TOKEN)
      phone PHONE_TOKEN in
  ~ Occ name masked /\ ~ Occ email masked /\ ~ Occ phone masked.
Proof.
  intros Mn Me Mp.
  apply maskable_inv in Mn as (Nne & Nl & Nr & Nw).
  apply maskable_inv in Me as (Ene & El & Er & Ew).
  apply maskable_inv in Mp as (Pne & Pl & Pr & Pw).
  assert (~ Occ name (lit "NAME")) as NN by (apply Nw; set_solver).
  assert (~ Occ name (lit "EMAIL")) as NE by (apply Nw; set_solver).
  assert (~ Occ name (lit "PHONE")) as NP by (apply Nw; set_solver).
  assert (~ Occ email (lit "EMAIL")) as EE by (apply Ew; set_solver).
  assert (~ Occ email (lit "PHONE")) as EP by (apply Ew; set_solver).
  assert (~ Occ phone (lit "PHONE")) as PP by (apply Pw; set_solver).
  set (m1 := replace text name NAME_TOKEN).
  set (m2 := replace m1 email EMAIL_TOKEN).
  assert (~ Occ name m1) as N1
    by apply (replace_removes_old name (lit "NAME") Nne Nl Nr NN text).
  assert (~ Occ name m2) as N2
    by apply (replace_keeps_free name email (lit "EMAIL") Nne Nl Nr NE Ene m1 [] N1).
  assert (~ Occ email m2) as E2
    by apply (replace_removes_old email (lit "EMAIL") Ene El Er EE m1).
  simpl. split; [|split].
  - apply (replace_keeps_free name phone (lit "PHONE") Nne Nl Nr NP Pne m2 [] N2).
  - apply (replace_keeps_free email phone (lit "PHONE") Ene El Er EP Pne m2 [] E2).
  - apply (replace_removes_old phone (lit "PHONE") Pne Pl Pr PP m2).
Qed.

(** X2: masking is idempotent.  The question is masked for the
    retriever and the prompt built around it is masked again; under the
    side conditions of C1 a second pass changes nothing. *)
Theorem mask_pii_idempotent (ss : SessionState) (info : gmap str str)
    (name email phone text : str) :
  user_info ss = Some info ->
  info !! lit "name" = Some name ->
  info !! lit "email" = Some email ->
  info !! lit "phone" = Some phone ->
  maskable name [lit "NAME"; lit "EMAIL"; lit "PHONE"] = true ->
  maskable email [lit "EMAIL"; lit "PHONE"] = true ->
  maskable phone [lit "PHONE"] = true ->
  mask_pii ss (mask_pii ss text) = mask_pii ss text.
Proof.
  intros Hss Hn He Hp Mn Me Mp.
  destruct (masked_text_is_clean name email phone text Mn Me Mp)
    as (Cn & Ce & Cp).
  rewrite !(mask_pii_active ss info name email phone) by done.
  apply maskable_inv in Mn as (Nne & _). apply maskable_inv in Me as (Ene & _).
  apply maskable_inv in Mp as (Pne & _).
  set (m := replace (replace (replace text name NAME_TOKEN) email EMAIL_TOKEN)
              phone PHONE_TOKEN) in *.
  rewrite (replace_no_occurrence m name) by done.
  rewrite (replace_no_occurrence m email) by done.
  by rewrite (replace_no_occurrence m phone).
Qed.

Lemma mask_pii_idempotent_witness :
  mask_pii ana_session
    (mask_pii ana_session (lit "Ana Li <ana@x.com>, Ana Li again"))
  = mask_pii ana_session (lit "Ana Li <ana@x.com>, Ana Li again").
Proof.
  apply (mask_pii_idempotent ana_session
           (new_user (lit "Ana Li") (lit "ana@x.com") (lit "5551234"))
           (lit "Ana Li") (lit "ana@x.com") (lit "5551234"));
    reflexivity.
Defined.

Lemma replace_name_round_trip (name text : str) :
  name <> [] -> LBRACKET ∉ text ->
  replace (replace text name NAME_TOKEN) NAME_TOKEN name = text.
Proof.
  intros Hne. rewrite !replace_nonempty by done.
  induction text as [|r IH|c s Hsw IH] using (scan_ind name Hne); intros Hb.
  - done.
  - rewrite replace_scan_match by done.
    rewrite (replace_scan_match NAME_TOKEN) by done.
    f_equal. apply IH. intros H. apply Hb. set_solver.
  - rewrite replace_scan_nomatch by done.
    assert (c <> LBRACKET) as Hc by (intros ->; apply Hb; set_solver).
    rewrite replace_scan_nomatch.
    + f_equal. apply IH. intros H. apply Hb. set_solver.
    + rewrite NAME_TOKEN_unfold. cbn [startswith].
      apply andb_false_iff. left. apply N.eqb_neq. by intros <-.
Qed.

(** X3: the round trip of a name.  For a text with no opening bracket
    in which neither the e-mail nor the phone occurs, masking only puts
    [[NAME]] for the name and [unmask_name] gives the text back. *)
Theorem mask_unmask_round_trip (ss : SessionState) (info : gmap str str)
    (name email phone text : str) :
  user_info ss = Some info ->
  info !! lit "name" = Some name ->
  info !! lit "email" = Some email ->
  info !! lit "phone" = Some phone ->
  truthy name = true ->
  maskable email [lit "NAME"] = true ->
  maskable phone [lit "NAME"] = true ->
  LBRACKET ∉ text ->
  occurs email text = false ->
  occurs phone text = false ->
  mask_pii ss text = replace text name NAME_TOKEN
  /\ unmask_name ss (mask_pii ss text) = Ok text.
Proof.
  intros Hss Hn He Hp Tn Me Mp Hb Oe Op.
  apply truthy_nonempty in Tn. apply occurs_false in Oe, Op.
  apply maskable_inv in Me as (Ene & El & Er & Ew).
  apply maskable_inv in Mp as (Pne & Pl & Pr & Pw).
  assert (~ Occ email (lit "NAME")) as EN by (apply Ew; set_solver).
  assert (~ Occ phone (lit "NAME")) as PN by (apply Pw; set_solver).
  assert (~ Occ email (replace text name NAME_TOKEN)) as E1
    by apply (replace_keeps_free email name (lit "NAME") Ene El Er EN Tn text [] Oe).
  assert (~ Occ phone (replace text name NAME_TOKEN)) as P1
    by apply (replace_keeps_free phone name (lit "NAME") Pne Pl Pr PN Tn text [] Op).
  assert (mask_pii ss text = replace text name NAME_TOKEN) as Hm.
  { rewrite (mask_pii_active ss info name email phone) by done.
    rewrite (replace_no_occurrence _ email) by done.
    by rewrite (replace_no_occurrence _ phone). }
  split; [done|]. rewrite Hm.
  rewrite (unmask_name_active ss info name) by done.
  by rewrite replace_name_round_trip.
Qed.

Lemma mask_unmask_round_trip_witness :
  mask_pii ana_session (lit "Dear Ana Li, welcome.") = lit "Dear [NAME], welcome."
  /\ unmask_name ana_session (mask_pii ana_session (lit "Dear Ana Li, welcome."))
     = Ok (lit "Dear Ana Li, welcome.").
Proof.
  assert (LBRACKET ∉ lit "Dear Ana Li, welcome.") as Hb.
  { apply (proj1 (bracket_free_spec (lit "Dear Ana Li, welcome.") eq_refl)). }
  exact (mask_unmask_round_trip ana_session
           (new_user (lit "Ana Li") (lit "ana@x.com") (lit "5551234"))
           (lit "Ana Li") (lit "ana@x.com") (lit "5551234")
           (lit "Dear Ana Li, welcome.")
           eq_refl eq_refl eq_refl eq_refl eq_refl eq_refl eq_refl Hb
           eq_refl eq_refl).
Defined.

Lemma length_replace_empty (s new : str) :
  length (replace s [] new) = length s + (length s + 1) * length new.
Proof.
  unfold replace. rewrite length_app.
  induction s as [|c s IH]; simpl; [lia|].
  rewrite length_app. simpl. lia.
Qed.

(** X4: with a profile that has none of the three keys (the empty dict
    of a signed-out session) every field defaults to the empty string
    and each pass inserts its placeholder before every character and at
    the end: a text of [n] characters comes out [448 * n + 447] long,
    so no text at all is left unchanged. *)
Theorem mask_pii_empty_profile_length (ss : SessionState)
    (info : gmap str str) (text : str) :
  user_info ss = Some info ->
  info !! lit "name" = None ->
  info !! lit "email" = None ->
  info !! lit "phone" = None ->
  length (mask_pii ss text) = 448 * length text + 447
  /\ mask_pii ss text <> text.
Proof.
  intros Hss Hn He Hp.
  assert (length (mask_pii ss text) = 448 * length text + 447) as Hlen.
  { unfold mask_pii, dict_get. rewrite Hss, Hn, He, Hp. simpl default.
    rewrite !length_replace_empty.
    change (length PHONE_TOKEN) with 7. change (length EMAIL_TOKEN) with 7.
    change (length NAME_TOKEN) with 6. lia. }
  split; [done|]. intros Heq. rewrite Heq in Hlen. lia.
Qed.

Lemma mask_pii_empty_profile_length_witness :
  length (mask_pii (logout ana_session) (lit "hello")) = 448 * 5 + 447
  /\ mask_pii (logout ana_session) (lit "hello") <> lit "hello".
Proof.
  exact (mask_pii_empty_profile_length (logout ana_session) ∅ (lit "hello")
           eq_refl eq_refl eq_refl eq_refl).
Defined.

(** ** The pipeline: success path and key errors *)

Section pipeline_more.
Context `{E : External}.

(** X5: the name is put back outside the [try].  With a profile that
    has no [name] key (the empty dict of a signed-out session),
    [output_node] raises [KeyError] for every state, whatever the model
    returned, and so does the whole pipeline once retrieval succeeded. *)
Theorem ask_profile_without_name (ss : SessionState) (info : gmap str str) :
  user_info ss = Some info ->
  info !! lit "name" = None ->
  (forall state, output_node ss state = Raise (KeyError (lit "name")))
  /\ (forall q docs,
        retriever_invoke (mask_pii ss q) = Ok docs ->
        ask ss q = Raise (KeyError (lit "name"))).
Proof.
  intros Hss Hn.
  assert (forall state, output_node ss state = Raise (KeyError (lit "name")))
    as Hout.
  { intros state. unfold output_node, unmask_name, getitem.
    by rewrite Hss, Hn. }
  split; [done|]. intros q docs Hr.
  unfold ask, app_invoke, router_node, channels. simpl.
  rewrite (retrieval_node_ok ss _ q docs) by done. simpl. by rewrite Hout.
Qed.

(** X6: a [KeyError] inside the [try] is swallowed like a model failure.
    For a state without [context] or without [question] the answer is
    the fixed message, whatever the model would return. *)
Theorem output_node_incomplete_state (ss : SessionState) (state : State) :
  name_available ss ->
  context state = None \/ question state = None ->
  output_node ss state
  = Ok (mkState (question state) (route state) (context state)
          (Some UNAVAILABLE)).
Proof.
  intros Hname Hmiss. unfold output_node.
  assert (try_except
            (ctx ← key_of (lit "context") (context state);
             q ← key_of (lit "question") (question state);
             llm_invoke (mask_pii ss (prompt_of ctx q))) UNAVAILABLE
          = UNAVAILABLE) as ->.
  { destruct Hmiss as [-> | Hq]; [done|].
    rewrite Hq. by destruct (context state). }
  by rewrite (unmask_name_unavailable ss Hname).
Qed.

(** X7: the success path.  When the retriever returns documents and the
    model returns a reply for the masked prompt, the final state holds
    the three channels of the graph: the question as typed, the joined
    passages as context and the reply with [[NAME]] replaced by the
    user's name.  The route that [router_node] writes is not in it. *)
Theorem ask_success (ss : SessionState) (info : gmap str str)
    (name q reply : str) (docs : list Document) :
  user_info ss = Some info ->
  info !! lit "name" = Some name ->
  retriever_invoke (mask_pii ss q) = Ok docs ->
  llm_invoke (mask_pii ss (prompt_of (context_of docs) q)) = Ok reply ->
  ask ss q
  = Ok (mkState (Some q) None (Some (context_of docs))
          (Some (replace reply NAME_TOKEN name))).
Proof.
  intros Hss Hn Hr Hllm.
  unfold ask, app_invoke, router_node, channels. simpl.
  rewrite (retrieval_node_ok ss _ q docs) by done. simpl.
  unfold output_node. simpl. rewrite Hllm. simpl.
  by rewrite (unmask_name_active ss info name).
Qed.

End pipeline_more.

Lemma ask_profile_without_name_witness :
  user_info (logout ana_session) = Some ∅
  /\ @ask online_external (logout ana_session) (lit "hi")
     = Raise (KeyError (lit "name")).
Proof.
  split; [reflexivity|].
  destruct (@ask_profile_without_name online_external (logout ana_session) ∅
              eq_refl eq_refl) as [_ H].
  exact (H (lit "hi") _ eq_refl).
Defined.

Lemma output_node_incomplete_state_witness :
  @output_node online_external ana_session
    (mkState (Some (lit "hi")) None None None)
  = Ok (mkState (Some (lit "hi")) None None (Some UNAVAILABLE)).
Proof.
  exact (@output_node_incomplete_state online_external ana_session
           (mkState (Some (lit "hi")) None None None)
           ana_session_name_available (or_introl eq_refl)).
Defined.

Lemma ask_success_witness :
  @ask online_external ana_session (lit "what do you do?")
  = Ok (mkState (Some (lit "what do you do?")) None
          (Some (PyStr (text_a ++ nl ++ text_b)))
          (Some (lit "Hello Ana Li, we provide tax advice."))).
Proof.
  exact (@ask_success online_external ana_session
           (new_user (lit "Ana Li") (lit "ana@x.com") (lit "5551234"))
           (lit "Ana Li") (lit "what do you do?")
           (lit "Hello [NAME], we provide tax advice.")
           [{| page_content := text_a |}; {| page_content := text_b |}]
           eq_refl eq_refl eq_refl eq_refl).
Defined.

(** ** The build steps: failures, the first build and the second run *)

Section ingestion_more.
Context `{E : External}.

(** X8: when the browser cannot be launched or the page cannot be
    fetched, [scrape_occams] raises that error and writes nothing:
    [knowledge.json] stays absent and every file is as before. *)
Theorem scrape_occams_browser_failure (w : World) (e : exn) :
  knowledge_json (files w) = None ->
  chrome_launch = Raise e
  \/ (chrome_launch = Ok tt /\ driver_get BASE_URL = Raise e) ->
  fst (scrape_occams w) = Raise e
  /\ files (snd (scrape_occams w)) = files w.
Proof.
  intros Hk Hfail. run_io. rewrite Hk. simpl.
  destruct Hfail as [-> | [-> ->]]; by simpl.
Qed.

Lemma contents_of_missing (knowledge : list (gmap str str)) (e : gmap str str) :
  e ∈ knowledge -> e !! lit "content" = None ->
  contents_of knowledge = Raise (KeyError (lit "content")).
Proof.
  intros Hin He. induction knowledge as [|e0 knowledge IH].
  - by apply not_elem_of_nil in Hin.
  - simpl. unfold getitem.
    destruct (e0 !! lit "content") as [c|] eqn:H0; [|done].
    apply elem_of_cons in Hin as [-> | Hin]; [congruence|].
    simpl. by rewrite IH.
Qed.

(** X9: when the chunker has to run ([chunks.json] absent) and cannot,
    it writes nothing.  Without [knowledge.json] it raises
    [FileNotFoundError] right after its existence check; with a record
    that lacks the [content] key it raises [KeyError] and every file is
    as before. *)
Theorem make_chunks_failure (w : World) :
  chunks_json (files w) = None ->
  (knowledge_json (files w) = None ->
   make_chunks w
   = (Raise (FileNotFoundError KNOWLEDGE_FILE),
      mkWorld (files w) (trace w ++ [PathExists CHUNKS_FILE])))
  /\ (forall knowledge e,
        knowledge_json (files w) = Some knowledge ->
        e ∈ knowledge -> e !! lit "content" = None ->
        fst (make_chunks w) = Raise (KeyError (lit "content"))
        /\ files (snd (make_chunks w)) = files w).
Proof.
  intros Hc. split.
  - intros Hk. run_io. rewrite Hc. simpl. by rewrite Hk.
  - intros knowledge e Hk Hin He. run_io. rewrite Hc. simpl. rewrite Hk. simpl.
    by rewrite (contents_of_missing knowledge e).
Qed.

(** X10: when the index has to be built ([faiss_index] absent), the
    documents embedded are the chunks of [chunks.json] in their order;
    the index is saved only if the embedding call returns, and a failure
    of that call or a missing [chunks.json] leaves every file as it was. *)
Theorem build_embeddings_run (w : World) :
  faiss_index (files w) = None ->
  (forall chunk_texts,
     chunks_json (files w) = Some chunk_texts ->
     let docs := map (fun text => {| page_content := text |}) chunk_texts in
     build_embeddings w
     = match from_documents docs with
       | Ok vectorstore =>
           (Ok tt,
            mkWorld (set_faiss_index vectorstore (files w))
              (trace w ++ [PathExists VECTORSTORE_PATH; FileRead CHUNKS_FILE;
                           EmbedDocuments docs; SaveLocal VECTORSTORE_PATH]))
       | Raise e =>
           (Raise e,
            mkWorld (files w)
              (trace w ++ [PathExists VECTORSTORE_PATH; FileRead CHUNKS_FILE;
                           EmbedDocuments docs]))
       end)
  /\ (chunks_json (files w) = None ->
      build_embeddings w
      = (Raise (FileNotFoundError CHUNKS_FILE),
         mkWorld (files w) (trace w ++ [PathExists VECTORSTORE_PATH]))).
Proof.
  intros Hf. split.
  - intros chunk_texts Hc docs. run_io. rewrite Hf. simpl. rewrite Hc. simpl.
    fold docs. destruct (from_documents docs); simpl; by rewrite <- !app_assoc.
  - intros Hc. run_io. rewrite Hf. simpl. by rewrite Hc.
Qed.

Lemma build_embeddings_build (w : World) (chunk_texts : list str)
    (vectorstore : VectorStore) :
  faiss_index (files w) = None ->
  chunks_json (files w) = Some chunk_texts ->
  from_documents (map (fun text => {| page_content := text |}) chunk_texts)
  = Ok vectorstore ->
  build_embeddings w
  = (Ok tt,
     mkWorld (set_faiss_index vectorstore (files w))
       (trace w ++ [PathExists VECTORSTORE_PATH; FileRead CHUNKS_FILE;
                    EmbedDocuments
                      (map (fun text => {| page_content := text |}) chunk_texts);
                    SaveLocal VECTORSTORE_PATH])).
Proof.
  intros Hf Hc Hemb. run_io. rewrite Hf. simpl. rewrite Hc. simpl.
  rewrite Hemb. simpl. by rewrite <- !app_assoc.
Qed.

Lemma contents_of_entries (texts : list str) :
  contents_of (map knowledge_entry texts) = Ok texts.
Proof.
  induction texts as [|t texts IH]; [done|].
  simpl. unfold getitem. rewrite knowledge_entry_content. simpl.
  by rewrite IH.
Qed.

Lemma make_chunks_run (w : World) (knowledge : list (gmap str str))
    (chunks : list str) :
  chunks_json (files w) = None ->
  knowledge_json (files w) = Some knowledge ->
  contents_of knowledge = Ok chunks ->
  make_chunks w
  = (Ok tt,
     mkWorld (set_chunks_json chunks (files w))
       (trace w ++ [PathExists CHUNKS_FILE; FileRead KNOWLEDGE_FILE;
                    FileWrite CHUNKS_FILE])).
Proof.
  intros Hc Hk Hcs. run_io. rewrite Hc. simpl. rewrite Hk. simpl.
  rewrite Hcs. simpl. by rewrite <- !app_assoc.
Qed.

(** X11: the first build and the second run.  From a directory without
    the three artifacts, with a working browser and embedding call,
    [ingest] writes the selected entries, their contents as chunks (one
    per entry, in order) and the index of these chunks, and leaves the
    user and chat files alone; a second [ingest] then performs the three
    existence checks only and changes no file. *)
Theorem ingest_builds_then_skips (w : World) (vectorstore : VectorStore) :
  knowledge_json (files w) = None ->
  chunks_json (files w) = None ->
  faiss_index (files w) = None ->
  chrome_launch = Ok tt ->
  driver_get BASE_URL = Ok tt ->
  let texts := keep_first (filter (fun t => long_enough t = true)
                             (all_texts page_source)) in
  from_documents (map (fun text => {| page_content := text |}) texts)
  = Ok vectorstore ->
  let w1 := snd (ingest w) in
  fst (ingest w) = Ok tt
  /\ files w1
     = mkStore (Some (map knowledge_entry texts)) (Some texts)
         (Some vectorstore) (user_file (files w)) (chat_file (files w))
  /\ ingest w1
     = (Ok tt,
        mkWorld (files w1)
          (trace w1 ++ [PathExists KNOWLEDGE_FILE; PathExists CHUNKS_FILE;
                        PathExists VECTORSTORE_PATH])).
Proof.
  intros Hk Hc Hf Hl Hg texts Hemb.
  assert (ingest w
          = (Ok tt,
             mkWorld (mkStore (Some (map knowledge_entry texts)) (Some texts)
                        (Some vectorstore) (user_file (files w))
                        (chat_file (files w)))
               (trace w ++
                [PathExists KNOWLEDGE_FILE; ChromeLaunch; DriverGet BASE_URL;
                 Sleep 5;
                 ExecuteScript
                   (lit "window.scrollTo(0, document.body.scrollHeight);");
                 Sleep 2; PageSource; DriverQuit; FileWrite KNOWLEDGE_FILE;
                 PathExists CHUNKS_FILE; FileRead KNOWLEDGE_FILE;
                 FileWrite CHUNKS_FILE;
                 PathExists VECTORSTORE_PATH; FileRead CHUNKS_FILE;
                 EmbedDocuments
                   (map (fun text => {| page_content := text |}) texts);
                 SaveLocal VECTORSTORE_PATH]))) as Hrun.
  { unfold ingest, mbind, IO_bind.
    rewrite scrape_occams_build by done.
    rewrite select_entries_spec. fold texts.
    rewrite (make_chunks_run _ (map knowledge_entry texts) texts)
      by (done || apply contents_of_entries).
    rewrite (build_embeddings_build _ texts vectorstore) by done.
    simpl. by rewrite <- !app_assoc. }
  intros w1. subst w1. rewrite Hrun. simpl.
  split; [done|]. split; [done|].
  unfold ingest, mbind, IO_bind.
  rewrite scrape_occams_skip by (by eexists).
  rewrite make_chunks_skip by (by eexists).
  rewrite build_embeddings_skip by (by eexists).
  simpl. by rewrite <- !app_assoc.
Qed.

(** ** The user and chat stores *)

(** X12: [load_users] returns the list that [save_users] wrote;
    [save_users] touches no other file; and with no user file
    [load_users] returns the empty list and creates nothing. *)
Theorem users_round_trip (w : World) (users : list (gmap str str)) :
  let w' := snd (save_users users w) in
  fst (save_users users w) = Ok tt
  /\ fst (load_users w') = Ok users
  /\ files w' = set_user_file users (files w)
  /\ files (snd (load_users w')) = files w'
  /\ (user_file (files w) = None ->
      fst (load_users w) = Ok [] /\ files (snd (load_users w)) = files w).
Proof.
  destruct w as [[k c f u ch] tr]. run_io.
  split; [done|]. split; [done|]. split; [done|]. split; [done|].
  by intros ->.
Qed.

(** X13: the last write wins.  Saving a history for an e-mail replaces
    what an earlier [save_chat] stored for it, and [save_chat] changes
    the chat file only. *)
Theorem save_chat_last_write_wins (w : World) (e : str)
    (h1 h2 : list (gmap str str)) :
  files (snd (save_chat e h2 (snd (save_chat e h1 w))))
  = files (snd (save_chat e h2 w))
  /\ fst (load_chat e (snd (save_chat e h2 (snd (save_chat e h1 w))))) = Ok h2
  /\ files (snd (save_chat e h1 w))
     = set_chat_file (<[e := h1]> (default ∅ (chat_file (files w)))) (files w).
Proof.
  destruct w as [[k c f u ch] tr]. run_io.
  destruct ch as [m|]; simpl; unfold dict_get;
    rewrite insert_insert_eq, lookup_insert_eq; done.
Qed.

(** X14: histories of different e-mails do not interfere.  After two
    saves under different e-mails, in either order, [load_chat] returns
    the same history for every e-mail: the saved one for each of the
    two, and for any other what it returned before.  (Nothing is said
    about the order of the keys in the file.) *)
Theorem save_chat_commute (w : World) (e1 e2 : str)
    (h1 h2 : list (gmap str str)) :
  e1 <> e2 ->
  let w12 := snd (save_chat e2 h2 (snd (save_chat e1 h1 w))) in
  let w21 := snd (save_chat e1 h1 (snd (save_chat e2 h2 w))) in
  (forall e, fst (load_chat e w12) = fst (load_chat e w21))
  /\ fst (load_chat e1 w12) = Ok h1
  /\ fst (load_chat e2 w12) = Ok h2
  /\ (forall e, e <> e1 -> e <> e2 ->
        fst (load_chat e w12) = fst (load_chat e w)).
Proof.
  intros Hne. destruct w as [[k c f u ch] tr]. run_io. unfold dict_get.
  destruct ch as [m|]; simpl.
  - split; [intros e; by rewrite insert_insert_ne|].
    split; [by rewrite lookup_insert_ne, lookup_insert_eq|].
    split; [by rewrite lookup_insert_eq|].
    intros e H1 H2. by rewrite !lookup_insert_ne.
  - split; [intros e; by rewrite insert_insert_ne|].
    split; [by rewrite lookup_insert_ne, lookup_insert_eq|].
    split; [by rewrite lookup_insert_eq|].
    intros e H1 H2. by rewrite !lookup_insert_ne, lookup_empty.
Qed.

End ingestion_more.

Lemma scrape_occams_browser_failure_witness :
  fst (@scrape_occams no_browser_external empty_world) = Raise WebDriverException
  /\ files (snd (@scrape_occams no_browser_external empty_world))
     = files (@empty_world no_browser_external).
Proof.
  exact (@scrape_occams_browser_failure no_browser_external empty_world
           WebDriverException eq_refl (or_introl eq_refl)).
Defined.

Lemma make_chunks_failure_witness :
  make_chunks (@empty_world sample_external)
  = (Raise (FileNotFoundError KNOWLEDGE_FILE),
     mkWorld (files (@empty_world sample_external)) [PathExists CHUNKS_FILE])
  /\ fst (make_chunks broken_world) = Raise (KeyError (lit "content"))
  /\ files (snd (make_chunks broken_world)) = files broken_world.
Proof.
  split.
  - exact (proj1 (make_chunks_failure (@empty_world sample_external) eq_refl)
             eq_refl).
  - apply (proj2 (make_chunks_failure broken_world eq_refl) broken_knowledge
             (<[lit "url" := BASE_URL]> ∅) eq_refl).
    + apply list_elem_of_further, list_elem_of_here.
    + reflexivity.
Defined.

Lemma build_embeddings_run_witness :
  build_embeddings chunked_world
  = (Ok tt,
     mkWorld
       (set_faiss_index
          ([{| page_content := text_a |}; {| page_content := text_b |}]
             : @VectorStore sample_external)
          (files chunked_world))
       [PathExists VECTORSTORE_PATH; FileRead CHUNKS_FILE;
        EmbedDocuments [{| page_content := text_a |}; {| page_content := text_b |}];
        SaveLocal VECTORSTORE_PATH])
  /\ build_embeddings (@empty_world sample_external)
     = (Raise (FileNotFoundError CHUNKS_FILE),
        mkWorld (files (@empty_world sample_external))
          [PathExists VECTORSTORE_PATH]).
Proof.
  split.
  - exact (proj1 (build_embeddings_run chunked_world eq_refl)
             [text_a; text_b] eq_refl).
  - exact (proj2 (build_embeddings_run (@empty_world sample_external) eq_refl)
             eq_refl).
Defined.

Lemma sample_texts :
  keep_first (filter (fun t => long_enough t = true)
                (@all_texts sample_external sample_page))
  = [text_a; text_b].
Proof. vm_compute. reflexivity. Qed.

Lemma ingest_builds_then_skips_witness :
  let w1 := snd (@ingest sample_external empty_world) in
  fst (@ingest sample_external empty_world) = Ok tt
  /\ files w1
     = mkStore (Some sample_entries) (Some [text_a; text_b])
         (Some ([{| page_content := text_a |}; {| page_content := text_b |}]
                  : @VectorStore sample_external)) None None
  /\ ingest w1
     = (Ok tt,
        mkWorld (files w1)
          (trace w1 ++ [PathExists KNOWLEDGE_FILE; PathExists CHUNKS_FILE;
                        PathExists VECTORSTORE_PATH])).
Proof.
  pose proof (@ingest_builds_then_skips sample_external empty_world
                [{| page_content := text_a |}; {| page_content := text_b |}]
                eq_refl eq_refl eq_refl eq_refl eq_refl) as H.
  cbv zeta in H. change (@page_source sample_external) with sample_page in H.
  rewrite sample_texts in H. exact (H eq_refl).
Defined.

Lemma users_round_trip_witness :
  let users := [new_user (lit "Ana Li") (lit "ana@x.com") (lit "5551234")] in
  let w := @empty_world sample_external in
  fst (load_users (snd (save_users users w))) = Ok users
  /\ fst (load_users w) = Ok []
  /\ files (snd (load_users w)) = files w.
Proof.
  intros users w.
  destruct (users_round_trip w users) as (_ & Hload & _ & _ & Habsent).
  split; [exact Hload|]. exact (Habsent eq_refl).
Defined.

Lemma save_chat_commute_witness :
  let w := @empty_world sample_external in
  let w12 := snd (save_chat (lit "bob@x.com") []
                    (snd (save_chat (lit "ana@x.com") [sample_turn] w))) in
  let w21 := snd (save_chat (lit "ana@x.com") [sample_turn]
                    (snd (save_chat (lit "bob@x.com") [] w))) in
  lit "ana@x.com" <> lit "bob@x.com"
  /\ fst (load_chat (lit "ana@x.com") w12) = fst (load_chat (lit "ana@x.com") w21)
  /\ fst (load_chat (lit "ana@x.com") w12) = Ok [sample_turn]
  /\ fst (load_chat (lit "bob@x.com") w12) = Ok [].
Proof.
  intros w w12 w21.
  assert (lit "ana@x.com" <> lit "bob@x.com") as Hne by (by vm_compute).
  split; [exact Hne|].
  destruct (save_chat_commute w (lit "ana@x.com") (lit "bob@x.com")
              [sample_turn] [] Hne) as (Hall & Ha & Hb & _).
  split; [exact (Hall (lit "ana@x.com"))|]. split; [exact Ha|exact Hb].
Defined.

(** ** The script: onboarding *)

Lemma new_user_name (name email phone : str) :
  new_user name email phone !! lit "name" = Some name.
Proof.
  unfold new_user. rewrite !lookup_insert_ne by (by vm_compute).
  apply lookup_insert_eq.
Qed.

Lemma new_user_email (name email phone : str) :
  new_user name email phone !! lit "email" = Some email.
Proof.
  unfold new_user. rewrite lookup_insert_ne by (by vm_compute).
  apply lookup_insert_eq.
Qed.

Lemma new_user_phone (name email phone : str) :
  new_user name email phone !! lit "phone" = Some phone.
Proof. unfold new_user. apply lookup_insert_eq. Qed.

Lemma is_user_new_user (name email phone n e p : str) :
  is_user name email phone (new_user n e p)
  <-> n = name /\ e = email /\ p = phone.
Proof.
  unfold is_user. rewrite new_user_name, new_user_email, new_user_phone.
  split; intros (H1 & H2 & H3); repeat split; congruence.
Qed.

Lemma same_user_spec (u : gmap str str) (name email phone : str) :
  has_user_keys u ->
  same_user u (new_user name email phone)
  = Ok (bool_decide (is_user name email phone u)).
Proof.
  intros ([n Hn] & [e He] & [p Hp]).
  assert (is_user name email phone u
          <-> n = name /\ e = email /\ p = phone) as Hiff.
  { unfold is_user. rewrite Hn, He, Hp.
    split; intros (H1 & H2 & H3); repeat split; congruence. }
  unfold same_user, getitem.
  rewrite Hn, He, Hp, new_user_name, new_user_email, new_user_phone. simpl.
  unfold mret, result_ret.
  destruct (decide (n = name)) as [-> | Hne].
  - rewrite bool_decide_true by done.
    destruct (decide (e = email)) as [-> | Hee].
    + rewrite bool_decide_true by done.
      f_equal. apply bool_decide_ext. rewrite Hiff. tauto.
    + rewrite bool_decide_false by done.
      f_equal. symmetry. apply bool_decide_eq_false. rewrite Hiff. tauto.
  - rewrite bool_decide_false by done.
    f_equal. symmetry. apply bool_decide_eq_false. rewrite Hiff. tauto.
Qed.

Lemma already_signed_up_spec (users : list (gmap str str))
    (name email phone : str) :
  (forall u, u ∈ users -> has_user_keys u) ->
  already_signed_up users (new_user name email phone)
  = Ok (bool_decide (Exists (is_user name email phone) users)).
Proof.
  induction users as [|u users IH]; intros Hkeys.
  - done.
  - simpl. rewrite same_user_spec by (apply Hkeys; apply list_elem_of_here).
    simpl. destruct (decide (is_user name email phone u)) as [Hu | Hu].
    + rewrite bool_decide_true by done. f_equal. symmetry.
      apply bool_decide_eq_true. by apply Exists_cons_hd.
    + rewrite bool_decide_false by done.
      rewrite IH by (intros v Hv; apply Hkeys; by apply list_elem_of_further).
      f_equal. apply bool_decide_ext. rewrite Exists_cons. tauto.
Qed.

Section script_properties.
Context `{E : External}.
Variable isdigit : str -> bool.

Lemma form_valid_true (name email phone : str) :
  form_valid isdigit name email phone = true ->
  truthy name = true /\ truthy email = true /\ truthy phone = true
  /\ occurs (lit "@") email = true /\ occurs (lit ".") email = true
  /\ isdigit phone = true /\ (length phone <? 7)%nat = false.
Proof.
  unfold form_valid. rewrite !andb_true_iff, Nat.leb_antisym, negb_true_iff.
  tauto.
Qed.

(** X15: a submitted form with an empty field, an e-mail without [@] or
    without a dot, or a phone that is not all digits or is shorter than
    7 characters is answered by one error notice; the session, the files
    and the log of effects stay as they were. *)
Theorem onboarding_rejects_invalid (name email phone : str) (s : AppState) :
  onboarding_complete (session s) = Some false ->
  form_valid isdigit name email phone = false ->
  exists msg,
    onboarding_block isdigit name email phone true s
    = (Ok tt, mkApp (session s) (world s) (notices s ++ [StError msg])).
Proof using Type.
  intros Hc Hv. run_app. rewrite Hc. simpl.
  unfold form_valid in Hv. rewrite Nat.leb_antisym in Hv.
  destruct (truthy name); simpl in *; [|by eexists].
  destruct (truthy email); simpl in *; [|by eexists].
  destruct (truthy phone); simpl in *; [|by eexists].
  destruct (occurs (lit "@") email); simpl in *; [|by eexists].
  destruct (occurs (lit ".") email); simpl in *; [|by eexists].
  destruct (isdigit phone); simpl in *; [|by eexists].
  destruct (length phone <? 7)%nat; simpl in *; [by eexists|done].
Qed.

Lemma load_users_run (w : World) :
  exists tr,
    load_users w = (Ok (default [] (user_file (files w))), mkWorld (files w) tr).
Proof using Type.
  run_io. destruct (user_file (files w)) eqn:Hu; simpl; rewrite ?Hu; by eexists.
Qed.

Lemma save_users_run (w : World) (users : list (gmap str str)) :
  save_users users w
  = (Ok tt,
     mkWorld (set_user_file users (files w)) (trace w ++ [FileWrite USER_FILE])).
Proof using Type. by run_io. Qed.

(** A valid form.  The session is signed in with the new profile in
    both branches; the user file gets the record appended unless a
    stored record has the same three fields. *)
Lemma onboarding_block_accept (name email phone : str) (s : AppState) :
  onboarding_complete (session s) = Some false ->
  form_valid isdigit name email phone = true ->
  (forall u, u ∈ default [] (user_file (files (world s))) -> has_user_keys u) ->
  let users := default [] (user_file (files (world s))) in
  exists w' n',
    onboarding_block isdigit name email phone true s
    = (Ok tt, mkApp (complete_onboarding name email phone (session s)) w' n')
    /\ (if bool_decide (Exists (is_user name email phone) users)
        then files w' = files (world s)
             /\ exists msg, n' = notices s ++ [StWarning msg]
        else files w'
             = set_user_file (users ++ [new_user name email phone])
                 (files (world s))
             /\ exists msg, n' = notices s ++ [StSuccess msg]).
Proof using Type.
  intros Hc Hv Hkeys users.
  apply form_valid_true in Hv as (Tn & Te & Tp & Oa & Od & Dp & Lp).
  destruct (load_users_run (world s)) as [tr Hload].
  unfold onboarding_block, mbind, App_bind, get_session.
  rewrite Hc. cbn [default negb]. rewrite Tn, Te, Tp, Oa, Od, Dp, Lp.
  cbn [negb orb id]. unfold in_world at 1. rewrite Hload. fold users.
  unfold of_result. rewrite already_signed_up_spec by done.
  destruct (bool_decide (Exists (is_user name email phone) users)).
  - unfold notify, put_session. cbn.
    eexists _, _. split; [reflexivity|]. split; [done|by eexists].
  - unfold in_world, mbind, App_bind. cbn [world session notices].
    rewrite save_users_run. unfold notify, put_session. cbn.
    eexists _, _. split; [reflexivity|]. split; [done|by eexists].
Qed.

(** The sign-up check does not read past records that have the keys
    and do not match. *)
Lemma already_signed_up_app (pre rest : list (gmap str str))
    (name email phone : str) :
  (forall v, v ∈ pre -> has_user_keys v /\ ~ is_user name email phone v) ->
  already_signed_up (pre ++ rest) (new_user name email phone)
  = already_signed_up rest (new_user name email phone).
Proof using Type.
  induction pre as [|v pre IH]; intros Hpre; [done|].
  destruct (Hpre v) as [Hk Hno]; [apply list_elem_of_here|].
  simpl. rewrite same_user_spec by done.
  rewrite bool_decide_false by done. simpl.
  apply IH. intros v' Hv'. apply Hpre. by apply list_elem_of_further.
Qed.

(** A valid form: what the block does, by the outcome of the sign-up
    check. *)
Lemma onboarding_block_run (name email phone : str) (s : AppState) :
  onboarding_complete (session s) = Some false ->
  form_valid isdigit name email phone = true ->
  let users := default [] (user_file (files (world s))) in
  exists tr,
    onboarding_block isdigit name email phone true s
    = match already_signed_up users (new_user name email phone) with
      | Ok true =>
          (Ok tt,
           mkApp (complete_onboarding name email phone (session s))
             (mkWorld (files (world s)) tr)
             (notices s ++
              [StWarning ([9888%N; 65039%N]
                          ++ lit " You have already signed up.")]))
      | Ok false =>
          (Ok tt,
           mkApp (complete_onboarding name email phone (session s))
             (mkWorld (set_user_file (users ++ [new_user name email phone])
                         (files (world s)))
                (tr ++ [FileWrite USER_FILE]))
             (notices s ++
              [StSuccess ([9989%N] ++ lit " Onboarding completed! You can now chat with the assistant.")]))
      | Raise e =>
          (Raise e, mkApp (session s) (mkWorld (files (world s)) tr) (notices s))
      end.
Proof using Type.
  intros Hc Hv users.
  apply form_valid_true in Hv as (Tn & Te & Tp & Oa & Od & Dp & Lp).
  destruct (load_users_run (world s)) as [tr Hload]. exists tr.
  unfold onboarding_block, mbind, App_bind, get_session.
  rewrite Hc. cbn [default negb]. rewrite Tn, Te, Tp, Oa, Od, Dp, Lp.
  cbn [negb orb id]. unfold in_world at 1. rewrite Hload. fold users.
  unfold of_result.
  destruct (already_signed_up users (new_user name email phone))
    as [[|]|e]; [| |done].
  - unfold notify, put_session. by cbn.
  - unfold in_world, mbind, App_bind. cbn [world session notices].
    rewrite save_users_run. unfold notify, put_session. by cbn.
Qed.

(** X16: a valid form, by the outcome of the sign-up check over the
    stored records.  If the check returns, the user is signed in with
    the profile of the form and an empty chat history, also when the
    record is already stored; the record is appended to the user file
    exactly when the check found no match, otherwise a warning is shown
    and the files stay as they were.  If the check raises [KeyError]
    because a stored record it reads lacks a key, the error is the
    outcome of the block: the user is not signed in and no file or
    notice changes.  The check returns, with a match exactly when some
    stored record has the same name, e-mail and phone, when all stored
    records have the three keys; it stops at the first match and it
    raises at the first record without a name that it reaches. *)
Theorem onboarding_accepts (name email phone : str) (s : AppState) :
  onboarding_complete (session s) = Some false ->
  form_valid isdigit name email phone = true ->
  let users := default [] (user_file (files (world s))) in
  let run := onboarding_block isdigit name email phone true s in
  match already_signed_up users (new_user name email phone) with
  | Ok known =>
      fst run = Ok tt
      /\ session (snd run) = complete_onboarding name email phone (session s)
      /\ (if known : bool
          then files (world (snd run)) = files (world s)
               /\ exists msg, notices (snd run) = notices s ++ [StWarning msg]
          else files (world (snd run))
               = set_user_file (users ++ [new_user name email phone])
                   (files (world s))
               /\ exists msg, notices (snd run) = notices s ++ [StSuccess msg])
  | Raise e =>
      fst run = Raise e
      /\ session (snd run) = session s
      /\ files (world (snd run)) = files (world s)
      /\ notices (snd run) = notices s
  end
  /\ ((forall u, u ∈ users -> has_user_keys u) ->
      already_signed_up users (new_user name email phone)
      = Ok (bool_decide (Exists (is_user name email phone) users)))
  /\ (forall pre u rest,
        users = pre ++ u :: rest ->
        (forall v, v ∈ pre -> has_user_keys v /\ ~ is_user name email phone v) ->
        (is_user name email phone u ->
         already_signed_up users (new_user name email phone) = Ok true)
        /\ (u !! lit "name" = None ->
            already_signed_up users (new_user name email phone)
            = Raise (KeyError (lit "name")))).
Proof using Type.
  intros Hc Hv users run.
  destruct (onboarding_block_run name email phone s Hc Hv) as [tr Hrun].
  fold users in Hrun. subst run. rewrite Hrun.
  split; [|split].
  - destruct (already_signed_up users (new_user name email phone))
      as [[|]|e]; simpl.
    + split; [done|]. split; [done|]. split; [done|by eexists].
    + split; [done|]. split; [done|]. split; [done|by eexists].
    + done.
  - intros Hkeys. by apply already_signed_up_spec.
  - intros pre u rest -> Hpre.
    rewrite already_signed_up_app by done. split.
    + intros Hu.
      assert (has_user_keys u) as Hk.
      { destruct Hu as (Hn & He & Hp). unfold has_user_keys.
        rewrite Hn, He, Hp. by repeat split. }
      simpl. rewrite same_user_spec by done.
      by rewrite bool_decide_true.
    + intros Hn. simpl. unfold same_user, getitem. by rewrite Hn.
Qed.

Lemma new_user_has_keys (name email phone : str) :
  has_user_keys (new_user name email phone).
Proof.
  unfold has_user_keys.
  rewrite new_user_name, new_user_email, new_user_phone. by repeat split.
Qed.

(** X17: sign-up keeps the user file free of duplicates.  If the stored
    records are pairwise different records of the form written by the
    onboarding, they still are after a valid submission, and the
    submitted record is among them. *)
Theorem onboarding_keeps_users_distinct (name email phone : str)
    (s : AppState) :
  onboarding_complete (session s) = Some false ->
  form_valid isdigit name email phone = true ->
  let users := default [] (user_file (files (world s))) in
  (forall u, u ∈ users -> exists n e p, u = new_user n e p) ->
  NoDup users ->
  let s' := snd (onboarding_block isdigit name email phone true s) in
  let users' := default [] (user_file (files (world s'))) in
  NoDup users'
  /\ (forall u, u ∈ users' -> exists n e p, u = new_user n e p)
  /\ new_user name email phone ∈ users'
  /\ (users' = users \/ users' = users ++ [new_user name email phone]).
Proof using Type.
  intros Hc Hv users Hform Hnd s' users'.
  assert (forall u, u ∈ users -> has_user_keys u) as Hkeys.
  { intros u Hu. destruct (Hform u Hu) as (n & e & p & ->).
    apply new_user_has_keys. }
  destruct (onboarding_block_accept name email phone s Hc Hv Hkeys)
    as (w' & n' & Hrun & Hcase).
  subst users' s'. rewrite Hrun. simpl. fold users in Hcase.
  destruct (decide (Exists (is_user name email phone) users)) as [Hex | Hex].
  - rewrite bool_decide_true in Hcase by done. destruct Hcase as [-> _].
    fold users. split; [done|]. split; [done|]. split; [|by left].
    apply Exists_exists in Hex as (u & Hu & His).
    destruct (Hform u Hu) as (n & e & p & ->).
    apply is_user_new_user in His as (-> & -> & ->). done.
  - rewrite bool_decide_false in Hcase by done. destruct Hcase as [-> _].
    simpl. split; [|split; [|split; [|by right]]].
    + apply NoDup_app. split; [done|]. split; [|apply NoDup_singleton].
      intros u Hu Hin. apply list_elem_of_singleton in Hin as ->.
      apply Hex, Exists_exists. exists (new_user name email phone).
      split; [done|]. by apply is_user_new_user.
    + intros u Hu. apply elem_of_app in Hu as [Hu | Hu]; [by apply Hform|].
      apply list_elem_of_singleton in Hu as ->. by eexists _, _, _.
    + apply elem_of_app. right. apply list_elem_of_here.
Qed.

End script_properties.

(** ** The script: chat turns and logout *)

Section script_chat.
Context `{E : External}.

Lemma ask_answer (ss : SessionState) (q : str) (result : State) :
  ask ss q = Ok result -> exists ai, answer result = Some ai.
Proof.
  unfold ask, app_invoke, router_node, channels. simpl.
  destruct (retrieval_node ss _) as [s2|e]; simpl; [|done].
  unfold output_node.
  destruct (unmask_name ss _) as [final|e]; simpl; [|done].
  intros [= <-]. by eexists.
Qed.

Lemma save_chat_run (w : World) (e : str) (h : list (gmap str str)) :
  exists tr,
    save_chat e h w
    = (Ok tt,
       mkWorld (set_chat_file (<[e := h]> (default ∅ (chat_file (files w))))
                  (files w)) tr).
Proof.
  run_io. destruct (chat_file (files w)) eqn:Hc; simpl; rewrite ?Hc; simpl;
    by eexists.
Qed.

Lemma chat_block_run (s : AppState) (info : gmap str str)
    (email q ai : str) (result : State) :
  onboarding_complete (session s) = Some true ->
  user_info (session s) = Some info ->
  info !! lit "email" = Some email ->
  truthy q = true ->
  ask (session s) q = Ok result ->
  answer result = Some ai ->
  let history := default [] (chat_history (session s)) ++ [chat_turn q ai] in
  exists tr,
    chat_block q s
    = (Ok tt,
       mkApp (mkSession (Some true) (Some info) (Some history)
                (form_id (session s)))
         (mkWorld (set_chat_file
                     (<[email := history]>
                        (default ∅ (chat_file (files (world s)))))
                     (files (world s))) tr)
         (notices s)).
Proof.
  intros Hc Hi He Hq Hask Hans history.
  destruct (save_chat_run (world s) email history) as [tr Hsave].
  exists tr.
  unfold chat_block, mbind, App_bind, get_session, of_result.
  rewrite Hc. cbn [default id]. rewrite Hq, Hask, Hans. cbn [key_of].
  unfold put_session. rewrite Hi. cbn [default id]. unfold getitem.
  rewrite He. unfold in_world. cbn [world session notices]. fold history.
  by rewrite Hsave.
Qed.

(** X18: a chat turn is persisted as it is shown.  For a signed-in user
    whose question gets a result from the pipeline, the turn (question
    as typed, final answer) is appended to the session history, the
    whole history is stored under the user's e-mail, reading it back
    gives the session history, and nothing else in the files changes. *)
Theorem chat_block_persists (s : AppState) (info : gmap str str)
    (email q : str) (result : State) :
  onboarding_complete (session s) = Some true ->
  user_info (session s) = Some info ->
  info !! lit "email" = Some email ->
  truthy q = true ->
  ask (session s) q = Ok result ->
  exists ai,
    answer result = Some ai
    /\ let history := default [] (chat_history (session s)) ++ [chat_turn q ai] in
       let s' := snd (chat_block q s) in
       fst (chat_block q s) = Ok tt
       /\ chat_history (session s') = Some history
       /\ user_info (session s') = Some info
       /\ files (world s')
          = set_chat_file
              (<[email := history]> (default ∅ (chat_file (files (world s)))))
              (files (world s))
       /\ fst (load_chat email (world s')) = Ok history
       /\ notices s' = notices s.
Proof.
  intros Hc Hi He Hq Hask.
  destruct (ask_answer _ _ _ Hask) as [ai Hans]. exists ai.
  split; [done|]. intros history s'.
  destruct (chat_block_run s info email q ai result Hc Hi He Hq Hask Hans)
    as [tr Hrun].
  subst s'. rewrite Hrun. simpl. fold history.
  repeat split; try done.
  run_io. unfold dict_get. by rewrite lookup_insert_eq.
Qed.

(** X19: a failing pipeline leaves no trace.  When [app.invoke] raises,
    the error reaches the caller of the script; no turn is appended,
    nothing is saved and the state is exactly as before. *)
Theorem chat_block_failure (s : AppState) (q : str) (e : exn) :
  onboarding_complete (session s) = Some true ->
  truthy q = true ->
  ask (session s) q = Raise e ->
  chat_block q s = (Raise e, s).
Proof.
  intros Hc Hq Hask.
  unfold chat_block, mbind, App_bind, get_session, of_result.
  rewrite Hc. cbn [default id]. by rewrite Hq, Hask.
Qed.

(** X20: logout stores the session history under the user's e-mail and
    resets the session: signed out, empty profile, empty history, form
    id incremented.  If the profile has no e-mail the click raises
    [KeyError] before anything is saved or reset. *)
Theorem logout_block_saves (s : AppState) (info : gmap str str) :
  onboarding_complete (session s) = Some true ->
  user_info (session s) = Some info ->
  match info !! lit "email" with
  | Some email =>
      let s' := snd (logout_block true s) in
      fst (logout_block true s) = Ok true
      /\ session s' = logout (session s)
      /\ files (world s')
         = set_chat_file
             (<[email := default [] (chat_history (session s))]>
                (default ∅ (chat_file (files (world s)))))
             (files (world s))
      /\ notices s' = notices s
  | None => logout_block true s = (Raise (KeyError (lit "email")), s)
  end.
Proof.
  intros Hc Hi.
  unfold logout_block, mbind, App_bind, get_session, of_result.
  rewrite Hc, Hi. cbn [default id]. unfold getitem.
  destruct (info !! lit "email") as [email|]; [|done].
  destruct (save_chat_run (world s) email (default [] (chat_history (session s))))
    as [tr Hsave].
  unfold in_world. rewrite Hsave. by simpl.
Qed.

End script_chat.

(** ** The script: two runs of [main] *)

Section script_runs.
Context `{E : External}.
Variable isdigit : str -> bool.

Lemma ingest_skip (w : World) :
  is_Some (knowledge_json (files w)) ->
  is_Some (chunks_json (files w)) ->
  is_Some (faiss_index (files w)) ->
  exists tr, ingest w = (Ok tt, mkWorld (files w) tr).
Proof using Type.
  intros Hk Hc Hf. unfold ingest, mbind, IO_bind.
  rewrite scrape_occams_skip by done.
  rewrite make_chunks_skip by done.
  rewrite build_embeddings_skip by done.
  by eexists.
Qed.

(** A run in which a signed-out visitor submits a valid form and
    nothing else: the session is signed in and only the user file may
    have changed. *)
Lemma main_sign_up (name email phone : str) (s : AppState) :
  is_Some (knowledge_json (files (world s))) ->
  is_Some (chunks_json (files (world s))) ->
  is_Some (faiss_index (files (world s))) ->
  default false (onboarding_complete (session s)) = false ->
  form_valid isdigit name email phone = true ->
  (forall u, u ∈ default [] (user_file (files (world s))) -> has_user_keys u) ->
  exists w' n',
    main isdigit (mkInputs name email phone true false []) s
    = (Ok tt,
       mkApp (complete_onboarding name email phone (init_session (session s)))
         w' n')
    /\ knowledge_json (files w') = knowledge_json (files (world s))
    /\ chunks_json (files w') = chunks_json (files (world s))
    /\ faiss_index (files w') = faiss_index (files (world s))
    /\ chat_file (files w') = chat_file (files (world s)).
Proof using Type.
  intros Hk Hc Hf Hout Hv Hkeys.
  destruct (ingest_skip (world s) Hk Hc Hf) as [tr Hing].
  set (sA := mkApp (init_session (session s)) (mkWorld (files (world s)) tr)
               (notices s)).
  assert (onboarding_complete (session sA) = Some false) as HcA
    by (simpl; by rewrite Hout).
  destruct (onboarding_block_accept isdigit name email phone sA HcA Hv Hkeys)
    as (w' & n' & Hrun & Hcase).
  exists w', n'. split.
  - unfold main, mbind, App_bind. cbn [in_name in_email in_phone in_submitted
      in_logout in_question].
    unfold in_world at 1. rewrite Hing.
    unfold get_session, put_session. cbn [session world notices].
    fold sA. rewrite Hrun.
    unfold logout_block, chat_block, mbind, App_bind, get_session.
    by cbn.
  - destruct (bool_decide _); destruct Hcase as [-> _]; by simpl.
Qed.

(** A later run in which the signed-in user asks a question. *)
Lemma main_question (s : AppState) (info : gmap str str)
    (email q ai : str) (result : State) (fid : nat)
    (history : list (gmap str str)) :
  is_Some (knowledge_json (files (world s))) ->
  is_Some (chunks_json (files (world s))) ->
  is_Some (faiss_index (files (world s))) ->
  session s = mkSession (Some true) (Some info) (Some history) (Some fid) ->
  info !! lit "email" = Some email ->
  truthy q = true ->
  ask (session s) q = Ok result ->
  answer result = Some ai ->
  exists tr,
    main isdigit (mkInputs [] [] [] false false q) s
    = (Ok tt,
       mkApp (mkSession (Some true) (Some info)
                (Some (history ++ [chat_turn q ai])) (Some fid))
         (mkWorld (set_chat_file
                     (<[email := history ++ [chat_turn q ai]]>
                        (default ∅ (chat_file (files (world s)))))
                     (files (world s))) tr)
         (notices s)).
Proof using Type.
  intros Hk Hc Hf Hs He Hq Hask Hans.
  destruct (ingest_skip (world s) Hk Hc Hf) as [tr Hing].
  set (sA := mkApp (session s) (mkWorld (files (world s)) tr) (notices s)).
  assert (onboarding_complete (session sA) = Some true) as HcA
    by (simpl; by rewrite Hs).
  assert (user_info (session sA) = Some info) as HiA
    by (simpl; by rewrite Hs).
  destruct (chat_block_run sA info email q ai result HcA HiA He Hq Hask Hans)
    as [tr' Hchat].
  exists tr'.
  unfold main, mbind, App_bind. cbn [in_name in_email in_phone in_submitted
    in_logout in_question].
  unfold in_world at 1. rewrite Hing.
  unfold get_session, put_session. cbn [session world notices].
  assert (init_session (session s) = session s) as -> by (by rewrite Hs).
  fold sA.
  unfold onboarding_block, logout_block, mbind, App_bind, get_session.
  rewrite HcA. cbn [default id negb mret App_ret]. rewrite HcA.
  cbn [default id negb mret App_ret]. rewrite Hchat. simpl. by rewrite Hs.
Qed.

(** X21: the stored history of a returning user is replaced, not
    continued.  [main] never calls [load_chat]: signing in starts an
    empty history, and the first question of the new session stores
    exactly that one turn under the e-mail, whatever the chat file held
    for this e-mail before. *)
Theorem returning_user_history_replaced (name email phone q : str)
    (s0 : AppState) (result : State) :
  is_Some (knowledge_json (files (world s0))) ->
  is_Some (chunks_json (files (world s0))) ->
  is_Some (faiss_index (files (world s0))) ->
  default false (onboarding_complete (session s0)) = false ->
  form_valid isdigit name email phone = true ->
  (forall u, u ∈ default [] (user_file (files (world s0))) -> has_user_keys u) ->
  truthy q = true ->
  ask (complete_onboarding name email phone (init_session (session s0))) q
  = Ok result ->
  let s1 := snd (main isdigit (mkInputs name email phone true false []) s0) in
  let s2 := snd (main isdigit (mkInputs [] [] [] false false q) s1) in
  fst (main isdigit (mkInputs name email phone true false []) s0) = Ok tt
  /\ fst (main isdigit (mkInputs [] [] [] false false q) s1) = Ok tt
  /\ exists ai,
       answer result = Some ai
       /\ chat_history (session s2) = Some [chat_turn q ai]
       /\ chat_file (files (world s2))
          = Some (<[email := [chat_turn q ai]]>
                    (default ∅ (chat_file (files (world s0)))))
       /\ fst (load_chat email (world s2)) = Ok [chat_turn q ai].
Proof using Type.
  intros Hk Hc Hf Hout Hv Hkeys Hq Hask s1 s2.
  destruct (main_sign_up name email phone s0 Hk Hc Hf Hout Hv Hkeys)
    as (w1 & n1 & Hrun1 & Hk1 & Hc1 & Hf1 & Hch1).
  destruct (ask_answer _ _ _ Hask) as [ai Hans].
  subst s1 s2. rewrite Hrun1. cbn [fst snd].
  set (s1 := mkApp (complete_onboarding name email phone
                      (init_session (session s0))) w1 n1).
  assert (is_Some (knowledge_json (files (world s1)))) as Hk'
    by (simpl; by rewrite Hk1).
  assert (is_Some (chunks_json (files (world s1)))) as Hc'
    by (simpl; by rewrite Hc1).
  assert (is_Some (faiss_index (files (world s1)))) as Hf'
    by (simpl; by rewrite Hf1).
  destruct (main_question s1 (new_user name email phone) email q ai result
              (default 0 (form_id (session s0))) [] Hk' Hc' Hf' eq_refl
              (new_user_email name email phone) Hq Hask Hans)
    as [tr Hrun2].
  rewrite Hrun2. cbn [fst snd session world files chat_history].
  split; [done|]. split; [done|]. exists ai.
  split; [done|]. split; [done|]. simpl. rewrite Hch1.
  split; [done|]. run_io. unfold dict_get. by rewrite lookup_insert_eq.
Qed.

End script_runs.

(** ** The script on a sample deployment *)

Lemma returning_users_have_keys :
  forall u, u ∈ default [] (user_file (files (world signed_out_app))) ->
            has_user_keys u.
Proof.
  intros u Hu. apply list_elem_of_singleton in Hu as ->.
  apply new_user_has_keys.
Qed.

Lemma sample_ask :
  @ask online_external ana_session (lit "what do you do?") = Ok sample_answer.
Proof. vm_compute. reflexivity. Qed.

Lemma onboarding_rejects_invalid_witness :
  form_valid ascii_isdigit (lit "Ana Li") (lit "ana@x.com") (lit "555-1234")
  = false
  /\ exists msg,
       onboarding_block ascii_isdigit (lit "Ana Li") (lit "ana@x.com")
         (lit "555-1234") true signed_out_app
       = (Ok tt,
          mkApp (session signed_out_app) (world signed_out_app)
            (notices signed_out_app ++ [StError msg])).
Proof.
  split; [reflexivity|].
  exact (onboarding_rejects_invalid ascii_isdigit (lit "Ana Li")
           (lit "ana@x.com") (lit "555-1234") signed_out_app eq_refl eq_refl).
Defined.

Lemma onboarding_accepts_witness :
  let run := onboarding_block ascii_isdigit (lit "Bo Chen") (lit "bo@x.com")
               (lit "5550000") true signed_out_app in
  let run' := onboarding_block ascii_isdigit (lit "Ana Li") (lit "ana@x.com")
                (lit "5551234") true half_user_app in
  (fst run = Ok tt
   /\ session (snd run)
      = complete_onboarding (lit "Bo Chen") (lit "bo@x.com") (lit "5550000")
          (session signed_out_app)
   /\ files (world (snd run))
      = set_user_file
          [ana_user; new_user (lit "Bo Chen") (lit "bo@x.com") (lit "5550000")]
          (files (world signed_out_app)))
  /\ (fst run' = Raise (KeyError (lit "email"))
      /\ session (snd run') = session half_user_app
      /\ files (world (snd run')) = files (world half_user_app)).
Proof.
  intros run run'. split.
  - pose proof (onboarding_accepts ascii_isdigit (lit "Bo Chen")
                  (lit "bo@x.com") (lit "5550000") signed_out_app
                  eq_refl eq_refl) as [H _].
    assert (already_signed_up
              (default [] (user_file (files (world signed_out_app))))
              (new_user (lit "Bo Chen") (lit "bo@x.com") (lit "5550000"))
            = Ok false) as Hs by (vm_compute; reflexivity).
    cbv zeta in H. rewrite Hs in H. destruct H as (H1 & H2 & H3 & _).
    split; [exact H1|]. split; [exact H2|exact H3].
  - pose proof (onboarding_accepts ascii_isdigit (lit "Ana Li")
                  (lit "ana@x.com") (lit "5551234") half_user_app
                  eq_refl eq_refl) as [H _].
    assert (already_signed_up
              (default [] (user_file (files (world half_user_app))))
              (new_user (lit "Ana Li") (lit "ana@x.com") (lit "5551234"))
            = Raise (KeyError (lit "email"))) as Hs by (vm_compute; reflexivity).
    cbv zeta in H. rewrite Hs in H. destruct H as (H1 & H2 & H3 & _).
    split; [exact H1|]. split; [exact H2|exact H3].
Defined.

Lemma onboarding_keeps_users_distinct_witness :
  let run := onboarding_block ascii_isdigit (lit "Ana Li") (lit "ana@x.com")
               (lit "5551234") true signed_out_app in
  NoDup (default [] (user_file (files (world (snd run)))))
  /\ ana_user ∈ default [] (user_file (files (world (snd run)))).
Proof.
  intros run.
  assert (NoDup (default [] (user_file (files (world signed_out_app)))))
    as Hnd by apply NoDup_singleton.
  assert (forall u,
            u ∈ default [] (user_file (files (world signed_out_app))) ->
            exists n e p, u = new_user n e p) as Hform.
  { intros u Hu. apply list_elem_of_singleton in Hu as ->. by eexists _, _, _. }
  destruct (onboarding_keeps_users_distinct ascii_isdigit (lit "Ana Li")
              (lit "ana@x.com") (lit "5551234") signed_out_app eq_refl eq_refl
              Hform Hnd) as (H1 & _ & H3 & _).
  exact (conj H1 H3).
Defined.

Lemma chat_block_persists_witness :
  let s' := snd (chat_block (lit "what do you do?") signed_in_app) in
  fst (chat_block (lit "what do you do?") signed_in_app) = Ok tt
  /\ exists ai,
       answer sample_answer = Some ai
       /\ chat_history (session s') = Some [chat_turn (lit "what do you do?") ai]
       /\ fst (load_chat (lit "ana@x.com") (world s'))
          = Ok [chat_turn (lit "what do you do?") ai].
Proof.
  intros s'.
  destruct (chat_block_persists signed_in_app ana_user (lit "ana@x.com")
              (lit "what do you do?") sample_answer eq_refl eq_refl
              (new_user_email _ _ _) eq_refl sample_ask)
    as (ai & Hans & Hrun & Hhist & _ & _ & Hload & _).
  split; [exact Hrun|]. exists ai. split; [exact Hans|].
  split; [exact Hhist|exact Hload].
Defined.

Lemma chat_block_failure_witness :
  chat_block (lit "hi") offline_app = (Raise (LibraryError 2), offline_app).
Proof.
  exact (chat_block_failure offline_app (lit "hi") (LibraryError 2)
           eq_refl eq_refl eq_refl).
Defined.

Lemma logout_block_saves_witness :
  let s' := snd (logout_block true signed_in_app) in
  fst (logout_block true signed_in_app) = Ok true
  /\ session s' = logout ana_session
  /\ chat_file (files (world s')) = Some (<[lit "ana@x.com" := []]> ∅).
Proof.
  intros s'.
  pose proof (logout_block_saves signed_in_app ana_user eq_refl eq_refl) as H.
  unfold ana_user in H.
  rewrite (new_user_email (lit "Ana Li") (lit "ana@x.com") (lit "5551234")) in H.
  destruct H as (H1 & H2 & H3 & _).
  split; [exact H1|]. split; [exact H2|].
  subst s'. rewrite H3. simpl. by rewrite insert_insert_eq.
Defined.

Lemma returning_user_history_replaced_witness :
  let s1 := snd (main ascii_isdigit
                   (mkInputs (lit "Ana Li") (lit "ana@x.com") (lit "5551234")
                      true false []) signed_out_app) in
  let s2 := snd (main ascii_isdigit
                   (mkInputs [] [] [] false false (lit "what do you do?")) s1) in
  chat_file (files (world signed_out_app))
  = Some (<[lit "ana@x.com" := [sample_turn; sample_turn]]> ∅)
  /\ exists ai,
       answer sample_answer = Some ai
       /\ fst (load_chat (lit "ana@x.com") (world s2))
          = Ok [chat_turn (lit "what do you do?") ai].
Proof.
  intros s1 s2. split; [reflexivity|].
  destruct (returning_user_history_replaced ascii_isdigit (lit "Ana Li")
              (lit "ana@x.com") (lit "5551234") (lit "what do you do?")
              signed_out_app sample_answer
              (ex_intro _ _ eq_refl) (ex_intro _ _ eq_refl)
              (ex_intro _ _ eq_refl) eq_refl eq_refl
              returning_users_have_keys eq_refl sample_ask)
    as (_ & _ & ai & Hans & _ & _ & Hload).
  exists ai. split; [exact Hans|exact Hload].
Defined.
